(** * winget_updater: the update-detection engine and the IPC pipe

    A shallow embedding of [update_checker.py] (class [WingetUpdateChecker]),
    of [ipc_handler.py] and of the handlers that [service_component.py]
    registers, with the properties of the specification stated and settled
    against it.

    Conventions of the embedding.
    - Text is a [string] of code points below 256, one [ascii] per code
      point; the character classes below are Python's on that range.
    - A value produced by [json.loads] is a [pyval].
    - A Python exception is a value of [exn]; a computation that may raise
      returns a [result].
    - The world outside the program (the [winget] subprocess, the clock,
      [json.loads]) is a parameter of the engine. *)

From Stdlib Require Import ZArith QArith Ascii String.
From stdpp Require Import base option list gmap strings.

Set Warnings "-register-all".

Local Open Scope string_scope.
Local Open Scope Z_scope.

(** ** Characters and text *)

Module Text.

Definition code (c : ascii) : N := N_of_ascii c.

Definition between (lo hi : N) (c : ascii) : bool :=
  ((lo <=? code c) && (code c <=? hi))%N.

(** [\d] of the [re] module: a decimal digit. *)
Definition is_decimal (c : ascii) : bool := between 48 57 c.

(** [str.isdigit]: the decimal digits and the superscripts two, three and
    one (code points 178, 179 and 185). *)
Definition isdigit (c : ascii) : bool :=
  is_decimal c || (code c =? 178)%N || (code c =? 179)%N || (code c =? 185)%N.

(** [str.isspace], which is also [\s]: TAB, LF, VT, FF, CR, FS, GS, RS,
    US, space, NEL and the no-break space. *)
Definition isspace (c : ascii) : bool :=
  between 9 13 c || between 28 32 c || (code c =? 133)%N || (code c =? 160)%N.

(** [str.lower] on one character: A-Z and the accented capitals from 192
    to 222, without the multiplication sign 215. *)
Definition lower_char (c : ascii) : ascii :=
  if between 65 90 c || (between 192 222 c && negb (code c =? 215)%N)
  then ascii_of_N (code c + 32) else c.

Definition chars (s : string) : list ascii := list_ascii_of_string s.
Definition text (l : list ascii) : string := string_of_list_ascii l.

Definition lower (s : string) : string := text (map lower_char (chars s)).

Definition is_empty (s : string) : bool :=
  match s with EmptyString => true | _ => false end.

Definition eqb (a b : string) : bool := bool_decide (a = b).

(** [any(p(c) for c in s)] and [all(p(c) for c in s)]. *)
Definition any_char (p : ascii -> bool) (s : string) : bool := existsb p (chars s).
Definition all_chars (p : ascii -> bool) (s : string) : bool := forallb p (chars s).

Fixpoint drop_while (p : ascii -> bool) (l : list ascii) : list ascii :=
  match l with
  | c :: t => if p c then drop_while p t else l
  | [] => []
  end.

Fixpoint take_while (p : ascii -> bool) (l : list ascii) : list ascii :=
  match l with
  | c :: t => if p c then c :: take_while p t else []
  | [] => []
  end.

(** [s.strip()]: leading and trailing white space removed. *)
Definition strip_chars (l : list ascii) : list ascii :=
  rev (drop_while isspace (rev (drop_while isspace l))).

Definition strip (s : string) : string := text (strip_chars (chars s)).

(** [l] starts with [p]. *)
Fixpoint starts_with (p l : list ascii) : bool :=
  match p, l with
  | [], _ => true
  | a :: p', b :: l' => bool_decide (a = b) && starts_with p' l'
  | _ :: _, [] => false
  end.

Fixpoint occurs (p l : list ascii) : bool :=
  starts_with p l || match l with [] => false | _ :: t => occurs p t end.

(** [sub in s] on two strings. *)
Definition contains (sub s : string) : bool := occurs (chars sub) (chars s).

(** [s.startswith(p)]. *)
Definition startswith (p s : string) : bool := starts_with (chars p) (chars s).

(** [s.split(sep)] for a separator of one character. *)
Fixpoint split_on (sep : ascii) (cur : list ascii) (l : list ascii) : list string :=
  match l with
  | [] => [text (rev cur)]
  | c :: t => if bool_decide (c = sep) then text (rev cur) :: split_on sep [] t
              else split_on sep (c :: cur) t
  end.

Definition split_lines (s : string) : list string :=
  split_on "010"%char [] (chars s).

End Text.

(** ** The regular expressions of the parser

    A backtracking matcher for the fragment of Python's [re] that the
    program uses: character classes, concatenation, greedy repetition
    [r{min,}] and the end anchor [$]. The patterns have no capturing group
    that is read, and none of them matches the empty string. *)

Module Re.

Import Text.

Inductive re : Type :=
| Cls (p : ascii -> bool)
| Cat (a b : re)
| Rep (min : nat) (r : re)
| Eol.

Definition Chr (c : ascii) : re := Cls (fun x => bool_decide (x = c)).

(** The loop of a greedy repetition of [body], at least [min] times: one
    more iteration is tried first, an iteration that consumes nothing ends
    the loop, and [k] continues after the last iteration. The counter [n]
    starts above the length of the text, so it never runs out. *)
Fixpoint rep_loop {R : Type} (body : list ascii -> (list ascii -> option R) -> option R)
    (k : list ascii -> option R) (n min : nat) (s : list ascii) : option R :=
  match n with
  | O => None
  | S n' =>
      match body s (fun s1 => if (length s1 <? length s)%nat
                              then rep_loop body k n' (pred min) s1 else None) with
      | Some x => Some x
      | None => match min with O => k s | S _ => None end
      end
  end.

(** [go r s k]: match [r] at the head of [s] and pass what remains to the
    continuation [k]; on [None] the matcher backtracks. *)
Fixpoint go {R : Type} (r : re) (s : list ascii) (k : list ascii -> option R) : option R :=
  match r with
  | Cls p => match s with
             | c :: t => if p c then k t else None
             | [] => None
             end
  | Cat a b => go a s (fun s1 => go b s1 k)
  | Rep min r1 => rep_loop (go r1) k (S (length s)) min s
  | Eol => match s with
           | [] => k s
           | [c] => if bool_decide (c = "010"%char) then k s else None
           | _ => None
           end
  end.

(** The length of the match of [r] at the head of [s], if there is one. *)
Definition match_at (r : re) (s : list ascii) : option nat :=
  (fun rest => (length s - length rest)%nat) <$> go r s Some.

(** [re.search(r, s).group(0)], when there is a match. *)
Fixpoint search (r : re) (s : list ascii) : option (list ascii) :=
  match match_at r s with
  | Some n => Some (take n s)
  | None => match s with
            | [] => None
            | _ :: t => search r t
            end
  end.

(** [re.sub(r, '', s)]: every match, leftmost first, removed. *)
Fixpoint sub_from (r : re) (skip : nat) (s : list ascii) : list ascii :=
  match s with
  | [] => []
  | c :: t =>
      match skip with
      | S n => sub_from r n t
      | O => match match_at r s with
             | Some (S n) => sub_from r n t
             | _ => c :: sub_from r O t
             end
      end
  end.

(** [re.split(r, s)]. *)
Fixpoint split_from (r : re) (skip : nat) (cur : list ascii) (s : list ascii) : list string :=
  match s with
  | [] => [text (rev cur)]
  | c :: t =>
      match skip with
      | S n => split_from r n [] t
      | O => match match_at r s with
             | Some (S n) => text (rev cur) :: split_from r n [] t
             | _ => split_from r O (c :: cur) t
             end
      end
  end.

(** [re.findall(r, s)] for a pattern without groups. *)
Fixpoint findall_from (r : re) (skip : nat) (s : list ascii) : list string :=
  match s with
  | [] => []
  | c :: t =>
      match skip with
      | S n => findall_from r n t
      | O => match match_at r s with
             | Some (S n) => text (take (S n) s) :: findall_from r n t
             | _ => findall_from r O t
             end
      end
  end.

Definition py_search (r : re) (s : string) : option string :=
  text <$> search r (chars s).
Definition py_sub (r : re) (s : string) : string := text (sub_from r 0 (chars s)).
Definition py_split (r : re) (s : string) : list string := split_from r 0 [] (chars s).
Definition py_findall (r : re) (s : string) : list string := findall_from r 0 (chars s).

Definition digit : re := Cls is_decimal.
Definition space : re := Cls isspace.

(** [\s{2,}] *)
Definition two_spaces : re := Rep 2 space.
(** [\d+] *)
Definition number : re := Rep 1 digit.
(** [\d+(\.\d+)+] *)
Definition dotted_version : re := Cat (Rep 1 digit) (Rep 1 (Cat (Chr ".") (Rep 1 digit))).
(** [\s*\([^)]*\)] *)
Definition parenthesised : re :=
  Cat (Rep 0 space)
      (Cat (Chr "(") (Cat (Rep 0 (Cls (fun c => negb (bool_decide (c = ")"%char))))) (Chr ")"))).
(** [\s+\d+(\.\d+)+$] *)
Definition trailing_version : re := Cat (Rep 1 space) (Cat dotted_version Eol).

End Re.

(** ** Python values, exceptions and the operations the program applies *)

Inductive exn : Type :=
| TypeError | AttributeError | KeyError | ValueError
| JSONDecodeError | UnicodeDecodeError | OSError | RecursionError
| PipeError (winerror : Z).

Inductive result (A : Type) : Type :=
| Ok (a : A)
| Raise (e : exn).
Arguments Ok {A} a.
Arguments Raise {A} e.

(** Sequencing of steps that may raise: the first exception ends the
    sequence. *)
Definition and_then {A B : Type} (m : result A) (f : A -> result B) : result B :=
  match m with Ok a => f a | Raise e => Raise e end.

Notation "'let?' x := m 'in' k" := (and_then m (fun x => k))
  (at level 10, x name, m at level 100, k at level 200).

(** What [json.loads] builds. A float is the rational it denotes; the
    items of a dict are in iteration order and a lookup takes the first
    binding of the key (in a dict the only one). *)
Inductive pyval : Type :=
| PNone
| PBool (b : bool)
| PInt (z : Z)
| PFloat (q : Q)
| PStr (s : string)
| PList (l : list pyval)
| PDict (items : list (string * pyval)).

Module Py.

(** [bool(v)], the test of [if v] and [not v]. *)
Definition truthy (v : pyval) : bool :=
  match v with
  | PNone => false
  | PBool b => b
  | PInt z => negb (z =? 0)
  | PFloat q => negb (Qnum q =? 0)
  | PStr s => negb (Text.is_empty s)
  | PList l => match l with [] => false | _ => true end
  | PDict d => match d with [] => false | _ => true end
  end.

Fixpoint assoc (k : string) (d : list (string * pyval)) : option pyval :=
  match d with
  | [] => None
  | (k', v) :: t => if Text.eqb k' k then Some v else assoc k t
  end.

Definition number_of (v : pyval) : option Q :=
  match v with
  | PBool b => Some (inject_Z (if b then 1 else 0))
  | PInt z => Some (inject_Z z)
  | PFloat q => Some q
  | _ => None
  end.

(** [a == b]: numbers (and booleans) by value, strings and [None] by
    identity of content, lists element by element, dicts key by key. *)
Fixpoint eq (a b : pyval) {struct a} : bool :=
  match a with
  | PNone => match b with PNone => true | _ => false end
  | PStr s => match b with PStr s' => Text.eqb s s' | _ => false end
  | PList l =>
      match b with
      | PList l' =>
          (fix all2 (l : list pyval) (l' : list pyval) {struct l} : bool :=
             match l, l' with
             | [], [] => true
             | x :: t, y :: t' => eq x y && all2 t t'
             | _, _ => false
             end) l l'
      | _ => false
      end
  | PDict d =>
      match b with
      | PDict d' =>
          (length d =? length d')%nat &&
          (fix every (d : list (string * pyval)) {struct d} : bool :=
             match d with
             | [] => true
             | (k, v) :: t =>
                 match assoc k d' with
                 | Some v' => eq v v' && every t
                 | None => false
                 end
             end) d
      | _ => false
      end
  | _ =>
      match number_of a, number_of b with
      | Some x, Some y => Qeq_bool x y
      | _, _ => false
      end
  end.

(** ["k" in v]: a key of a dict, an element of a list, a substring of a
    string; anything else is not a container. *)
Definition contains (k : string) (v : pyval) : result bool :=
  match v with
  | PDict d => Ok (bool_decide (is_Some (assoc k d)))
  | PList l => Ok (existsb (eq (PStr k)) l)
  | PStr s => Ok (Text.contains k s)
  | _ => Raise TypeError
  end.

(** [v["k"]]. *)
Definition getitem (v : pyval) (k : string) : result pyval :=
  match v with
  | PDict d => match assoc k d with Some x => Ok x | None => Raise KeyError end
  | _ => Raise TypeError
  end.

(** [v.get("k", default)]. *)
Definition get (v : pyval) (k : string) (default : pyval) : result pyval :=
  match v with
  | PDict d => Ok (match assoc k d with Some x => x | None => default end)
  | _ => Raise AttributeError
  end.

(** [for x in v]: the elements of a list, the keys of a dict, the
    characters of a string. *)
Definition iter (v : pyval) : result (list pyval) :=
  match v with
  | PList l => Ok l
  | PDict d => Ok (map (fun kv => PStr (fst kv)) d)
  | PStr s => Ok (map (fun c => PStr (String c EmptyString)) (Text.chars s))
  | _ => Raise TypeError
  end.

(** [v.items()]: only a dict has it. *)
Definition items (v : pyval) : result (list (pyval * pyval)) :=
  match v with
  | PDict d => Ok (map (fun kv => (PStr (fst kv), snd kv)) d)
  | _ => Raise AttributeError
  end.

(** The receiver of a string method such as [v.lower()]. *)
Definition str_of (v : pyval) : result string :=
  match v with
  | PStr s => Ok s
  | _ => Raise AttributeError
  end.

(** [v in a_set_of_strings]: lists and dicts cannot be hashed; a value
    that is not a string equals none of the elements. *)
Definition in_set (v : pyval) (X : gset string) : result bool :=
  match v with
  | PStr s => Ok (bool_decide (s ∈ X))
  | PList _ | PDict _ => Raise TypeError
  | _ => Ok false
  end.

(** [sys.int_info.default_max_str_digits]: the longest run of digits that
    [int] converts. The program never changes the limit. *)
Definition int_max_str_digits : nat := 4300%nat.

(** [int(s)] on a run of decimal digits: [ValueError] when the run is
    longer than the limit. *)
Definition int (s : string) : result Z :=
  if (int_max_str_digits <? length (Text.chars s))%nat then Raise ValueError
  else Ok (fold_left (fun acc c => 10 * acc + (Z.of_N (Text.code c) - 48))
             (Text.chars s) 0).

(** [[int(part) for part in parts]]. *)
Fixpoint ints (parts : list string) : result (list Z) :=
  match parts with
  | [] => Ok []
  | part :: rest =>
      let? n := int part in
      let? l := ints rest in
      Ok (n :: l)
  end.

End Py.

(** ** The data model of [WingetUpdateChecker] *)

(** One entry of [available_updates]: a dict with the keys [name], [id],
    [current_version], [available_version] and, on the text path,
    [source]. *)
Record UpdateRecord : Type := {
  name : pyval;
  id : pyval;
  current_version : pyval;
  available_version : pyval;
  source : option string
}.

(** A boolean option of [settings.ini] as [getboolean] sees it. *)
Inductive setting : Type :=
| Absent
| Flag (b : bool)
| NotBoolean.

Record ConfigManager : Type := {
  include_pinned_updates : setting;
  include_unknown_versions : setting;
  last_check : option Z
}.

Record Checker : Type := {
  config_manager : option ConfigManager;
  available_updates : list UpdateRecord;
  update_count : Z;
  last_check_time : option Z;
  is_checking : bool;
  pinned_packages : gset string
}.

Definition set_config_manager (c : option ConfigManager) (x : Checker) : Checker :=
  {| config_manager := c; available_updates := available_updates x;
     update_count := update_count x; last_check_time := last_check_time x;
     is_checking := is_checking x; pinned_packages := pinned_packages x |}.
Definition set_available_updates (l : list UpdateRecord) (x : Checker) : Checker :=
  {| config_manager := config_manager x; available_updates := l;
     update_count := update_count x; last_check_time := last_check_time x;
     is_checking := is_checking x; pinned_packages := pinned_packages x |}.
Definition set_update_count (n : Z) (x : Checker) : Checker :=
  {| config_manager := config_manager x; available_updates := available_updates x;
     update_count := n; last_check_time := last_check_time x;
     is_checking := is_checking x; pinned_packages := pinned_packages x |}.
Definition set_last_check_time (t : option Z) (x : Checker) : Checker :=
  {| config_manager := config_manager x; available_updates := available_updates x;
     update_count := update_count x; last_check_time := t;
     is_checking := is_checking x; pinned_packages := pinned_packages x |}.
Definition set_is_checking (b : bool) (x : Checker) : Checker :=
  {| config_manager := config_manager x; available_updates := available_updates x;
     update_count := update_count x; last_check_time := last_check_time x;
     is_checking := b; pinned_packages := pinned_packages x |}.
Definition set_pinned_packages (X : gset string) (x : Checker) : Checker :=
  {| config_manager := config_manager x; available_updates := available_updates x;
     update_count := update_count x; last_check_time := last_check_time x;
     is_checking := is_checking x; pinned_packages := X |}.

(** [self.available_updates.append(u)]. *)
Definition append_update (u : UpdateRecord) (x : Checker) : Checker :=
  set_available_updates (available_updates x ++ [u]) x.

(** [WingetUpdateChecker(config_manager)]. *)
Definition new_checker (c : option ConfigManager) : Checker :=
  {| config_manager := c; available_updates := []; update_count := 0;
     last_check_time := None; is_checking := false; pinned_packages := ∅ |}.

(** A filter argument is [None], [True] or [False]; [not flag] is true on
    [None] and on [False]. *)
Definition flag_on (f : option bool) : bool :=
  match f with Some true => true | _ => false end.

(** ** The comparability check *)

(** [_is_valid_version_comparison]. The conversion of the digit runs is
    inside a [try]: when [int] raises, the [except] clause passes and the
    function returns [False]. *)
Definition _is_valid_version_comparison (current_version available_version : pyval)
    : result bool :=
  if negb (Py.truthy current_version) then Ok false
  else if negb (Py.truthy available_version) then Ok false
  else
    let? c := Py.str_of current_version in
    if Text.eqb (Text.lower c) "unknown" then Ok false
    else
      let? a := Py.str_of available_version in
      if Text.eqb (Text.lower a) "unknown" then Ok false
      else
        let has_numbers_current := Text.any_char Text.isdigit c in
        let has_numbers_available := Text.any_char Text.isdigit a in
        if negb has_numbers_current || negb has_numbers_available then Ok false
        else
          match (let? current_nums := Py.ints (Re.py_findall Re.number c) in
                 let? available_nums := Py.ints (Re.py_findall Re.number a) in
                 Ok (current_nums, available_nums)) with
          | Ok (_ :: _, _ :: _) => Ok true
          | Ok _ => Ok false
          | Raise _ => Ok false
          end.

(** [_is_package_pinned]. *)
Definition _is_package_pinned (self : Checker) (package_id : pyval) : result bool :=
  Py.in_set package_id (pinned_packages self).

(** The comparability predicate in the words of the specification: both
    strings non-empty, neither equal to "unknown" whatever the case, each
    with at least one decimal digit. *)
Definition has_decimal_digit (v : string) : Prop :=
  ∃ c, c ∈ Text.chars v ∧ Text.is_decimal c = true.

Definition is_unknown_word (v : string) : Prop := Text.lower v = "unknown".

Definition comparable (c a : string) : Prop :=
  c ≠ "" ∧ a ≠ "" ∧ ¬ is_unknown_word c ∧ ¬ is_unknown_word a ∧
  has_decimal_digit c ∧ has_decimal_digit a.

(** A run that [int] converts. *)
Definition converts (part : string) : Prop :=
  (length (Text.chars part) <= Py.int_max_str_digits)%nat.

(** No run of decimal digits of [v] is longer than [int] converts: at no
    position of [v] do more than [int_max_str_digits] digits start. *)
Definition digit_runs_convert (v : string) : Prop :=
  forall i, (length (Text.take_while Text.is_decimal (drop i (Text.chars v)))
             <= Py.int_max_str_digits)%nat.

(** C5 as the specification states it: the check is true exactly on the
    comparable pairs. *)
Definition comparability_as_specified : Prop :=
  forall c a : string,
    exists b, _is_valid_version_comparison (PStr c) (PStr a) = Ok b
              /\ (b = true <-> comparable c a).

(** What the specification asks of an entry of the result, for the pin set
    and the two flags of the check that produced it. *)
Definition admissible (pins : gset string) (include_pinned include_unknown : option bool)
    (u : UpdateRecord) : Prop :=
  exists c a,
    current_version u = PStr c /\ available_version u = PStr a /\
    c <> a /\ comparable c a /\
    (forall i, id u = PStr i -> i ∈ pins -> include_pinned = Some true) /\
    (c = "" \/ is_unknown_word c -> include_unknown = Some true).

(** The state of a checker whose result list meets the invariant for the
    pin set [pins]. *)
Definition result_admissible (pins : gset string) (ip iu : option bool) (x : Checker) : Prop :=
  pinned_packages x = pins /\ Forall (admissible pins ip iu) (available_updates x).

(** The count and the time of the last check, as a property of the
    checker object. *)
Definition count_and_time (t : option Z) (n : Z) (x : Checker) : Prop :=
  last_check_time x = t /\ update_count x = n.

(** ** The free-text parser *)

(** [_is_header_line]. *)
Definition standard_headers : list string :=
  [ "Name                   Id                    Version     Available   Source";
    "Name  Id          Version  Available Source";
    "-----------------------------------------------------------------------" ].

Definition _is_header_line (line : string) : bool :=
  existsb (Text.eqb (Text.strip line)) standard_headers
  || (Text.startswith "Name" (Text.strip line) && Text.contains " Id " line
      && Text.contains " Version " line && Text.contains " Available " line)
  || (Text.startswith "Package" (Text.strip line) && Text.contains " ID " line
      && Text.contains " Version " line && Text.contains " Available " line).

(** [_should_skip_line]. *)
Definition skip_phrases : list string :=
  [ "upgrades available"; "upgrade available"; "no updates found";
    "package(s) have"; "prevent upgrade"; "explicit targeting" ].

Definition _should_skip_line (line : string) : bool :=
  Text.is_empty (Text.strip line)
  || Text.all_chars (fun c => bool_decide (c = "-"%char)) (Text.strip line)
  || _is_header_line line
  || existsb (fun x => Text.contains x (Text.lower line)) skip_phrases.

(** The columns of a line: [[p.strip() for p in re.split(r'\s{2,}', line.strip())]]. *)
Definition columns (line : string) : list string :=
  map Text.strip (Re.py_split Re.two_spaces (Text.strip line)).

(** The version of a column: the first dotted number in it, or the column. *)
Definition clean_version (v : string) : string :=
  match Re.py_search Re.dotted_version v with
  | Some m => m
  | None => v
  end.

(** The display name: parenthesised groups and a trailing version removed. *)
Definition clean_name (n : string) : string :=
  Text.strip (Re.py_sub Re.trailing_version (Re.py_sub Re.parenthesised n)).

Definition is_unknown_text (version : string) : bool :=
  Text.eqb (Text.lower version) "unknown" || Text.is_empty version.

(** [not include_pinned and self._is_package_pinned(x)]. *)
Definition pinned_and_excluded (self : Checker) (include_pinned : option bool) (x : pyval)
    : result bool :=
  if flag_on include_pinned then Ok false else _is_package_pinned self x.

(** The [try] block of the loop of [_process_output_section] on one line
    that is not skipped: the record it appends, if any. *)
Definition parse_line (self : Checker) (include_pinned include_unknown : option bool)
    (line : string) : result (option UpdateRecord) :=
  match columns line with
  | name0 :: id_str :: version0 :: available0 :: _ =>
      let version := clean_version version0 in
      let available := clean_version available0 in
      let name := clean_name name0 in
      if is_unknown_text version && negb (flag_on include_unknown) then Ok None
      else
        let? valid := _is_valid_version_comparison (PStr version) (PStr available) in
        if negb valid then Ok None
        else
          let? pinned := pinned_and_excluded self include_pinned (PStr id_str) in
          if pinned then Ok None
          else if negb (Text.is_empty name) && negb (Text.is_empty id_str)
                  && negb (Text.is_empty version) && negb (Text.is_empty available)
                  && negb (Py.eq (PStr version) (PStr available))
          then Ok (Some {| name := PStr name; id := PStr id_str;
                           current_version := PStr version;
                           available_version := PStr available;
                           source := Some "winget" |})
          else Ok None
  | _ => Ok None
  end.

(** One turn of the loop: a skipped line and a line whose [try] block
    raised append nothing. *)
Definition process_line (self : Checker) (include_pinned include_unknown : option bool)
    (line : string) : option UpdateRecord :=
  if _should_skip_line line then None
  else match parse_line self include_pinned include_unknown line with
       | Ok r => r
       | Raise _ => None
       end.

(** [_process_output_section]. *)
Fixpoint _process_output_section (section_lines : list string)
    (include_pinned include_unknown : option bool) (self : Checker) : Checker :=
  match section_lines with
  | [] => self
  | line :: rest =>
      _process_output_section rest include_pinned include_unknown
        (match process_line self include_pinned include_unknown line with
         | Some u => append_update u self
         | None => self
         end)
  end.

(** [_split_output_into_sections]: the loop carries [sections],
    [current_section] and [in_first_section]. *)
Definition section_markers : list string :=
  [ "The following packages have an upgrade available, but require explicit targeting for upgrade:";
    "have version numbers that cannot be determined";
    "have pins that prevent upgrade" ].

Definition close_section (sections : list (list string)) (current_section : list string)
    : list (list string) :=
  match current_section with
  | [] => sections
  | _ => sections ++ [current_section]
  end.

Fixpoint split_loop (markers : list string) (lines : list string)
    (sections : list (list string)) (current_section : list string)
    (in_first_section : bool) : list (list string) :=
  match lines with
  | [] => close_section sections current_section
  | line :: rest =>
      if existsb (fun marker => Text.contains marker line) markers
      then split_loop markers rest (close_section sections current_section) [line] false
      else if in_first_section && _is_header_line line
      then split_loop markers rest (close_section sections current_section) [line]
             in_first_section
      else split_loop markers rest sections (current_section ++ [line]) in_first_section
  end.

Definition _split_output_into_sections (lines : list string) (markers : list string)
    : list (list string) :=
  split_loop markers lines [] [] true.

(** [_parse_winget_output]. *)
Definition says_no_updates (line : string) : bool :=
  Text.contains "No updates found." line || Text.contains "No available upgrades." line.

Definition _parse_winget_output (output : string)
    (include_pinned include_unknown : option bool) (self : Checker) : Checker :=
  let self := set_available_updates [] self in
  let lines := Text.split_lines (Text.strip output) in
  if existsb says_no_updates lines then set_update_count 0 self
  else
    let sections := _split_output_into_sections lines section_markers in
    let self :=
      fold_left (fun self section_lines =>
                   match section_lines with
                   | [] => self
                   | _ => _process_output_section section_lines
                            include_pinned include_unknown self
                   end) sections self in
    set_update_count (Z.of_nat (length (available_updates self))) self.

(** ** The world and the state of a run *)

(** What the program does to the world, most recent first: a subprocess
    started with its argument list, or a reading of the clock. *)
Inductive event : Type :=
| Spawned (cmd : list string)
| ClockRead.

(** The result of [subprocess.run(cmd, capture_output=True, text=True,
    check=False)]: a completed process, or an exception (the executable is
    missing, the output cannot be decoded). *)
Record CompletedProcess : Type := {
  returncode : Z;
  stdout : string;
  stderr : string
}.

Inductive run_outcome : Type :=
| Completed (p : CompletedProcess)
| RunRaised (e : exn).

(** The checker object together with the events so far. *)
Record Sys : Type := { self : Checker; past : list event }.

(** A method body: it reads and changes the state and returns or raises.
    The changes made before an exception stay. *)
Definition M (A : Type) : Type := Sys -> result A * Sys.

Definition ret {A : Type} (a : A) : M A := fun s => (Ok a, s).

Definition bind {A B : Type} (m : M A) (f : A -> M B) : M B :=
  fun s => match m s with
           | (Ok a, s') => f a s'
           | (Raise e, s') => (Raise e, s')
           end.

Notation "'let*' x := m 'in' k" := (bind m (fun x => k))
  (at level 10, x name, m at level 100, k at level 200).
Notation "'exec' m 'in' k" := (bind m (fun _ => k))
  (at level 10, m at level 100, k at level 200).

Definition lift {A : Type} (r : result A) : M A := fun s => (r, s).

Definition get_self : M Checker := fun s => (Ok (self s), s).

Definition modify (f : Checker -> Checker) : M unit :=
  fun s => (Ok tt, {| self := f (self s); past := past s |}).

(** [try: body except Exception: handler]. *)
Definition try_except {A : Type} (body : M A) (handler : exn -> M A) : M A :=
  fun s => match body s with
           | (Ok a, s') => (Ok a, s')
           | (Raise e, s') => handler e s'
           end.

(** [try: body finally: cleanup], for a cleanup that cannot raise. *)
Definition try_finally {A : Type} (body : M A) (cleanup : Checker -> Checker) : M A :=
  fun s => match body s with
           | (r, s') => (r, {| self := cleanup (self s'); past := past s' |})
           end.

Fixpoint for_each {A : Type} (l : list A) (body : A -> M unit) : M unit :=
  match l with
  | [] => ret tt
  | x :: t => exec body x in for_each t body
  end.

(** A method body keeps a property of the checker object. *)
Definition preserves {A : Type} (I : Checker -> Prop) (m : M A) : Prop :=
  forall s, I (self s) -> I (self (snd (m s))).

(** ** The engine *)

Section Engine.

(** [json.loads]; [None] stands for an exception, [JSONDecodeError] or
    another: the two [except] clauses of [_parse_winget_json] answer
    alike. *)
Variable json_loads : string -> option pyval.
(** [subprocess.run] and [datetime.now] in the world reached after the
    given events. *)
Variable subprocess_run : list event -> list string -> run_outcome.
Variable datetime_now : list event -> Z.

Definition run (cmd : list string) : M CompletedProcess :=
  fun s =>
    let s' := {| self := self s; past := Spawned cmd :: past s |} in
    match subprocess_run (past s) cmd with
    | Completed p => (Ok p, s')
    | RunRaised e => (Raise e, s')
    end.

Definition now : M Z :=
  fun s => (Ok (datetime_now (past s)), {| self := self s; past := ClockRead :: past s |}).

(** *** The configuration collaborator *)

(** [getboolean] on an option: a missing one is first written as 'False',
    one that is not a boolean raises. *)
Definition getboolean (v : setting) : result bool * setting :=
  match v with
  | Absent => (Ok false, Flag false)
  | Flag b => (Ok b, Flag b)
  | NotBoolean => (Raise ValueError, NotBoolean)
  end.

Definition get_include_pinned_updates (c : ConfigManager) : result bool * ConfigManager :=
  let (r, v) := getboolean (include_pinned_updates c) in
  (r, {| include_pinned_updates := v;
         include_unknown_versions := include_unknown_versions c;
         last_check := last_check c |}).

Definition get_include_unknown_versions (c : ConfigManager) : result bool * ConfigManager :=
  let (r, v) := getboolean (include_unknown_versions c) in
  (r, {| include_pinned_updates := include_pinned_updates c;
         include_unknown_versions := v;
         last_check := last_check c |}).

(** [if include is None: include = self.config_manager.getter()], under
    [if self.config_manager]. *)
Definition from_config (getter : ConfigManager -> result bool * ConfigManager)
    (include : option bool) : M (option bool) :=
  fun s =>
    match config_manager (self s), include with
    | Some c, None =>
        let (r, c') := getter c in
        (match r with Ok b => Ok (Some b) | Raise e => Raise e end,
         {| self := set_config_manager (Some c') (self s); past := past s |})
    | _, _ => (Ok include, s)
    end.

(** [if self.config_manager: self.config_manager.set_last_check()]; the
    time written is [datetime.now()]. *)
Definition set_last_check_if_configured : M unit :=
  let* x := get_self in
  match config_manager x with
  | Some c =>
      let* t := now in
      modify (set_config_manager
                (Some {| include_pinned_updates := include_pinned_updates c;
                         include_unknown_versions := include_unknown_versions c;
                         last_check := Some t |}))
  | None => ret tt
  end.

(** *** The pin registry *)

Definition is_pin_list_noise (line : string) : bool :=
  Text.is_empty (Text.strip line) || Text.contains "---" line
  || (Text.contains "Name" line && Text.contains "Id" line).

Definition pinned_ids (out : string) : list string :=
  flat_map (fun line =>
              if is_pin_list_noise line then []
              else match columns line with
                   | _ :: package_id :: _ => [package_id]
                   | _ => []
                   end)
           (Text.split_lines (Text.strip out)).

(** [_refresh_pinned_packages]. *)
Definition _refresh_pinned_packages : M unit :=
  exec modify (set_pinned_packages ∅) in
  try_except
    (let* process := run ["winget"; "pin"; "list"] in
     if returncode process =? 0
     then modify (fun x => set_pinned_packages
                             (pinned_packages x ∪ list_to_set (pinned_ids (stdout process))) x)
     else ret tt)
    (fun _ => ret tt).

(** *** The structured parser *)

Definition is_unknown_json (current_version : pyval) : bool :=
  Py.eq current_version (PStr "Unknown") || negb (Py.truthy current_version).

(** The first loop of the [Sources] branch: [packages] starts as [[]] and
    is extended with what iterating each [source["Packages"]] gives. *)
Fixpoint collect_packages (sources : list pyval) (packages : list pyval)
    : result (list pyval) :=
  match sources with
  | [] => Ok packages
  | source :: rest =>
      let? has := Py.contains "Packages" source in
      if has
      then let? p := Py.getitem source "Packages" in
           let? more := Py.iter p in
           collect_packages rest (packages ++ more)
      else collect_packages rest packages
  end.

(** The body of the second loop of the [Sources] branch. *)
Definition sources_entry (self : Checker) (include_pinned include_unknown : option bool)
    (pkg_id pkg_info : pyval) : result (option UpdateRecord) :=
  let? has_version := Py.contains "Version" pkg_info in
  let? has_both :=
    (if has_version then Py.contains "AvailableVersion" pkg_info else Ok false) in
  if negb has_both then Ok None
  else
    let? current_version := Py.get pkg_info "Version" (PStr "Unknown") in
    let? available_version := Py.get pkg_info "AvailableVersion" (PStr "Unknown") in
    if is_unknown_json current_version && negb (flag_on include_unknown) then Ok None
    else
      let? valid := _is_valid_version_comparison current_version available_version in
      if negb valid then Ok None
      else
        let? pinned := pinned_and_excluded self include_pinned pkg_id in
        if pinned then Ok None
        else if negb (Py.eq current_version available_version)
        then let? n := Py.get pkg_info "Name" pkg_id in
             Ok (Some {| name := n; id := pkg_id;
                         current_version := current_version;
                         available_version := available_version;
                         source := None |})
        else Ok None.

(** [all(k in item for k in keys)]. *)
Fixpoint all_in (keys : list string) (item : pyval) : result bool :=
  match keys with
  | [] => Ok true
  | k :: rest =>
      let? has := Py.contains k item in
      if has then all_in rest item else Ok false
  end.

(** The body of the loop of the [Data] branch. *)
Definition data_entry (self : Checker) (include_pinned include_unknown : option bool)
    (item : pyval) : result (option UpdateRecord) :=
  let? has_all := all_in ["Name"; "Id"; "Version"; "AvailableVersion"] item in
  if negb has_all then Ok None
  else
    let? current_version := Py.getitem item "Version" in
    let? available_version := Py.getitem item "AvailableVersion" in
    if is_unknown_json current_version && negb (flag_on include_unknown) then Ok None
    else
      let? valid := _is_valid_version_comparison current_version available_version in
      if negb valid then Ok None
      else
        let? pinned :=
          (if flag_on include_pinned then Ok false
           else let? i := Py.getitem item "Id" in _is_package_pinned self i) in
        if pinned then Ok None
        else if negb (Py.eq current_version available_version)
        then let? n := Py.getitem item "Name" in
             let? i := Py.getitem item "Id" in
             Ok (Some {| name := n; id := i;
                         current_version := current_version;
                         available_version := available_version;
                         source := None |})
        else Ok None.

(** One turn of a loop of the structured parser: an exception leaves the
    loop and the function's [try]. *)
Definition append_entry (entry : Checker -> result (option UpdateRecord)) : M unit :=
  let* x := get_self in
  let* r := lift (entry x) in
  match r with
  | Some u => modify (append_update u)
  | None => ret tt
  end.

Definition sources_branch (include_pinned include_unknown : option bool) (data : pyval)
    : M unit :=
  let* sources := lift (let? v := Py.getitem data "Sources" in Py.iter v) in
  let* packages := lift (collect_packages sources []) in
  let* items := lift (Py.items (PList packages)) in
  for_each items (fun kv =>
    append_entry (fun x => sources_entry x include_pinned include_unknown (fst kv) (snd kv))).

Definition data_branch (include_pinned include_unknown : option bool) (data : pyval)
    : M unit :=
  let* items := lift (let? v := Py.getitem data "Data" in Py.iter v) in
  for_each items (fun item =>
    append_entry (fun x => data_entry x include_pinned include_unknown item)).

(** The choice of the branch: a [Sources] key, else a [Data] key, else
    nothing to extract. *)
Definition extract_updates (include_pinned include_unknown : option bool) (data : pyval)
    : M unit :=
  let* has_sources := lift (Py.contains "Sources" data) in
  if has_sources then sources_branch include_pinned include_unknown data
  else let* has_data := lift (Py.contains "Data" data) in
       if has_data then data_branch include_pinned include_unknown data
       else ret tt.

(** The end of [_parse_winget_json]: the count, the time of the check. *)
Definition finish_parse : M (option Z) :=
  exec modify (fun x => set_update_count (Z.of_nat (length (available_updates x))) x) in
  exec set_last_check_if_configured in
  let* t := now in
  exec modify (set_last_check_time (Some t)) in
  let* x := get_self in
  ret (Some (update_count x)).

(** [_parse_winget_json]: the count, or [None] when anything raised. *)
Definition _parse_winget_json (output : string)
    (include_pinned include_unknown : option bool) : M (option Z) :=
  try_except
    (exec modify (set_available_updates []) in
     let* data := lift (match json_loads output with
                        | Some v => Ok v
                        | None => Raise JSONDecodeError
                        end) in
     exec extract_updates include_pinned include_unknown data in
     finish_parse)
    (fun _ => ret None).

(** *** Checking *)

Definition json_commands (base_command : list string) : list (list string) :=
  [ (base_command ++ ["--format"; "json"])%list;
    ["winget"; "update"; "--format"; "json"];
    ["winget"; "upgrade"; "--format"; "json"];
    ["winget"; "update"; "--accept-source-agreements"; "--include-unknown";
     "--include-pinned"; "--source"; "winget"; "--format"; "json"] ].

(** The loop of [_check_updates_json]: the first command that exits with
    zero decides, whatever its parse gives; a command that fails or raises
    passes to the next. *)
Fixpoint try_commands (commands : list (list string))
    (include_pinned include_unknown : option bool) : M (option Z) :=
  match commands with
  | [] => ret None
  | cmd :: rest =>
      let* returned :=
        try_except
          (let* process := run cmd in
           if returncode process =? 0
           then let* r := _parse_winget_json (stdout process) include_pinned include_unknown in
                ret (Some r)
           else ret None)
          (fun _ => ret None) in
      match returned with
      | Some r => ret r
      | None => try_commands rest include_pinned include_unknown
      end
  end.

(** [_check_updates_json]. *)
Definition _check_updates_json (base_command : list string)
    (include_pinned include_unknown : option bool) : M (option Z) :=
  try_except
    (try_commands (json_commands base_command) include_pinned include_unknown)
    (fun _ => ret None).

Definition base_command : list string :=
  ["winget"; "update"; "--include-unknown"; "--include-pinned"; "--accept-source-agreements"].

(** [check_updates], in the order of the source: the guard; [begin_check],
    from the reading of the settings to the refresh of the pins;
    [check_attempt], the [try] block, whose last part [text_fallback] runs
    when the structured attempts gave [None]; the [except] and [finally]
    clauses. *)
Definition begin_check (include_pinned include_unknown : option bool)
    : M (option bool * option bool) :=
  let* include_pinned := from_config get_include_pinned_updates include_pinned in
  let* include_unknown := from_config get_include_unknown_versions include_unknown in
  exec modify (set_is_checking true) in
  exec modify (set_available_updates []) in
  exec modify (set_update_count 0) in
  exec _refresh_pinned_packages in
  ret (include_pinned, include_unknown).

Definition text_fallback (include_pinned include_unknown : option bool) : M Z :=
  let* process := run base_command in
  if negb (returncode process =? 0)
  then exec modify (set_is_checking false) in ret 0
  else
    exec modify (_parse_winget_output (stdout process) include_pinned include_unknown) in
    exec set_last_check_if_configured in
    let* t := now in
    exec modify (set_last_check_time (Some t)) in
    let* x := get_self in
    ret (update_count x).

Definition check_attempt (include_pinned include_unknown : option bool) : M Z :=
  let* result := _check_updates_json base_command include_pinned include_unknown in
  match result with
  | Some n => ret n
  | None => text_fallback include_pinned include_unknown
  end.

Definition check_updates (force : bool) (include_pinned include_unknown : option bool)
    : M Z :=
  let* x := get_self in
  if is_checking x && negb force then ret (update_count x)
  else
    let* flags := begin_check include_pinned include_unknown in
    try_finally
      (try_except (check_attempt (fst flags) (snd flags)) (fun _ => ret 0))
      (set_is_checking false).

(** *** Installing *)

Definition upgrade_command : list string :=
  ["winget"; "upgrade"; "--all"; "--accept-source-agreements"; "--disable-interactivity"].

(** The ids of [updates_to_install] that some entry of the new
    [available_updates] still has. *)
Definition still_pending (updates_to_install available : list UpdateRecord) : list pyval :=
  flat_map (fun update =>
              if existsb (fun current_update => Py.eq (id current_update) (id update)) available
              then [id update] else [])
           updates_to_install.

(** The [try] block of [install_all_updates]. When [still_pending] is not
    empty the function returns [False], also when writing the warning
    raises. *)
Definition install_and_verify (updates_to_install : list UpdateRecord) : M bool :=
  try_except
    (let* process := run upgrade_command in
     if returncode process =? 0
     then exec check_updates true None None in
          let* x := get_self in
          match still_pending updates_to_install (available_updates x) with
          | [] => ret true
          | _ => ret false
          end
     else ret false)
    (fun _ => ret false).

(** [install_all_updates]. *)
Definition install_all_updates : M bool :=
  exec check_updates true (Some true) (Some true) in
  let* x := get_self in
  match available_updates x with
  | [] => ret true
  | _ => install_and_verify (available_updates x)
  end.

(** C3 as the specification states it: under the same conditions the
    result list, the count and the time held before the call are all as
    before. *)
Definition prior_result_kept_on_text_failure : Prop :=
  forall (s s1 s2 : Sys) (force : bool) (ip iu ip' iu' : option bool)
         (p : CompletedProcess),
    is_checking (self s) && negb force = false ->
    begin_check ip iu s = (Ok (ip', iu'), s1) ->
    _check_updates_json base_command ip' iu' s1
    = (Ok None, s2) ->
    subprocess_run (past s2) base_command = Completed p ->
    returncode p <> 0 ->
    exists s3,
      check_updates force ip iu s = (Ok 0, s3)
      /\ available_updates (self s3) = available_updates (self s)
      /\ update_count (self s3) = update_count (self s)
      /\ last_check_time (self s3) = last_check_time (self s).

(** *** The accessors of the cached result *)



(** [get_last_check_time]. *)
Definition get_last_check_time : M (option Z) :=
  let* x := get_self in
  ret (last_check_time x).

(** *** The asynchronous check *)

(** What [asyncio.create_subprocess_exec] followed by [communicate] gives:
    the exit code with the two captured streams, each as [decode('utf-8')]
    reads it ([None]: the bytes are not UTF-8), or an exception. *)
Inductive exec_outcome : Type :=
| Exited (code : Z) (out err : option string)
| ExecRaised (e : exn).

Variable subprocess_exec : list event -> list string -> exec_outcome.

Definition communicate (cmd : list string) : M (Z * option string * option string) :=
  fun s =>
    let s' := {| self := self s; past := Spawned cmd :: past s |} in
    match subprocess_exec (past s) cmd with
    | Exited code out err => (Ok (code, out, err), s')
    | ExecRaised e => (Raise e, s')
    end.

Definition decoded (stream : option string) : result string :=
  match stream with
  | Some t => Ok t
  | None => Raise UnicodeDecodeError
  end.

(** [check_updates_async], run from its call to its return. The parser is
    called with its default flags, both [False]. *)
Definition check_updates_async : M Z :=
  let* x := get_self in
  if is_checking x then ret (update_count x)
  else
    exec modify (set_is_checking true) in
    try_finally
      (try_except
         (let* process := communicate ["winget"; "update"] in
          let '(code, out, err) := process in
          if negb (code =? 0)
          then exec lift (decoded err) in
               exec modify (set_is_checking false) in
               ret 0
          else
            let* output := lift (decoded out) in
            exec modify (_parse_winget_output output (Some false) (Some false)) in
            exec set_last_check_if_configured in
            let* t := now in
            exec modify (set_last_check_time (Some t)) in
            let* x := get_self in
            ret (update_count x))
         (fun _ => ret 0))
      (set_is_checking false).

(** *** The service's use of the checker *)

(** [WingetUpdaterService._check_updates]: the count, or 0 when the check
    raised. *)
Definition service_check_updates : M Z :=
  try_except (check_updates false None None) (fun _ => ret 0).

(** [datetime.isoformat]. *)
Variable isoformat : Z -> string.

(** [WingetUpdaterService._handle_check_updates]. *)
Definition _handle_check_updates (data : pyval) : M pyval :=
  let* update_count := service_check_updates in
  let* t := now in
  ret (PDict [("update_count", PInt update_count);
              ("success", PBool true);
              ("last_check", PStr (isoformat t))]).

End Engine.

(** ** The IPC server *)

(** An [IPCMessage]; [to_json] writes its three fields, so an envelope on
    the pipe is identified with the message it carries. *)
Record IPCMessage : Type := {
  command : pyval;
  data : pyval;
  timestamp : pyval
}.

(** The server's end of the named pipe: whether a client is connected, and
    the envelopes written to it so far. *)
Record Pipe : Type := {
  connected : bool;
  written : list IPCMessage
}.

(** What [json.loads] does with a text: the value it builds, a
    [JSONDecodeError], or a [RecursionError] on a text nested deeper than
    the interpreter's recursion limit. *)
Inductive loads_outcome : Type :=
| Loaded (v : pyval)
| NotJSON
| TooDeep.

(** A registered handler: it returns a JSON value or raises. *)
Definition handler : Type := pyval -> result pyval.

Record IPCServer : Type := {
  running : bool;
  command_handlers : gmap string handler
}.

(** What one turn of the request loop does next. *)
Inductive turn : Type :=
| Continue
| Break.

(** [data if data is not None else {}] of [IPCMessage.__init__]. *)
Definition message_data (x : pyval) : pyval :=
  match x with PNone => PDict [] | _ => x end.

Section IPC.

(** [bytes.decode('utf-8')] ([None]: [UnicodeDecodeError]), [json.loads],
    [str(e)] of an exception, [str(v)] of a value inside an f-string, and
    [datetime.now().isoformat()]. *)
Variable decode_utf8 : list Byte.byte -> option string.
Variable json_loads : string -> loads_outcome.
Variable str_of_exn : exn -> string.
Variable str_of_value : pyval -> string.
Variable isoformat_now : string.

(** [IPCMessage(command, data)]. *)
Definition new_message (command : string) (data : pyval) : IPCMessage :=
  {| command := PStr command;
     data := message_data data;
     timestamp := PStr isoformat_now |}.

Definition error_message (text : string) : IPCMessage :=
  new_message "error" (PDict [("message", PStr text)]).

(** [IPCMessage.from_json]: [None] on [JSONDecodeError] and on [KeyError];
    any other exception leaves the method. *)
Definition from_json (json_str : string) : result (option IPCMessage) :=
  match json_loads json_str with
  | NotJSON => Ok None
  | TooDeep => Raise RecursionError
  | Loaded d =>
      match (let? c := Py.getitem d "command" in
             let? x := Py.getitem d "data" in
             let? t := Py.getitem d "timestamp" in
             Ok {| command := c; data := message_data x; timestamp := t |}) with
      | Ok msg => Ok (Some msg)
      | Raise KeyError => Ok None
      | Raise e => Raise e
      end
  end.

(** [command in self.command_handlers] and the handler found. *)
Definition find_handler (server : IPCServer) (command : pyval) : result (option handler) :=
  match command with
  | PStr c => Ok (command_handlers server !! c)
  | PList _ | PDict _ => Raise TypeError
  | _ => Ok None
  end.

(** [IPCServer._handle_command]. *)
Definition _handle_command (server : IPCServer) (message : IPCMessage) : result IPCMessage :=
  let? h := find_handler server (command message) in
  match h with
  | Some handle =>
      match handle (data message) with
      | Ok r => Ok (new_message "response" r)
      | Raise e => Ok (error_message (str_of_exn e))
      end
  | None => Ok (error_message ("Unknown command: " ++ str_of_value (command message)))
  end.

(** [win32file.WriteFile(self.pipe, envelope)]. *)
Definition WriteFile (m : IPCMessage) (p : Pipe) : result unit * Pipe :=
  if connected p
  then (Ok tt, {| connected := true; written := written p ++ [m] |})
  else (Raise (PipeError 232), p).

(** One turn of the request loop of [_run_server] once [ReadFile] has
    returned [raw]: the [try] block, then the two [except] clauses. *)
Definition serve_request (server : IPCServer) (raw : list Byte.byte) (p : Pipe)
    : turn * Pipe :=
  let attempt : result (option IPCMessage) :=
    let? message_json :=
      (match decode_utf8 raw with
       | Some t => Ok t
       | None => Raise UnicodeDecodeError
       end) in
    let? message := from_json message_json in
    match message with
    | None => Ok None
    | Some m => let? response := _handle_command server m in Ok (Some response)
    end in
  match attempt with
  | Ok None => (Continue, p)
  | Ok (Some response) =>
      match WriteFile response p with
      | (Ok _, p') => (Continue, p')
      | (Raise _, p') => (Break, p')
      end
  | Raise (PipeError _) => (Break, p)
  | Raise e => (Break, snd (WriteFile (error_message (str_of_exn e)) p))
  end.

(** A turn of the loop: [ReadFile] returns the request or raises. *)
Definition serve_turn (server : IPCServer) (read : result (list Byte.byte)) (p : Pipe)
    : turn * Pipe :=
  match read with
  | Ok raw => serve_request server raw p
  | Raise (PipeError _) => (Break, p)
  | Raise e => (Break, snd (WriteFile (error_message (str_of_exn e)) p))
  end.

(** C9 as the specification states it: every request received on a
    connected pipe, also one that does not decode to an envelope, gets
    exactly one envelope written back. *)
Definition every_request_gets_one_reply : Prop :=
  forall (server : IPCServer) (raw : list Byte.byte) (p : Pipe),
    connected p = true ->
    exists reply,
      written (snd (serve_request server raw p))
      = (written p ++ [reply])%list.

(** The request loop of [_run_server] over the reads of one connection,
    while [self.running] stays true: it goes on after a turn that
    continues and ends with the first turn that breaks. *)
Fixpoint serve_session (server : IPCServer) (reads : list (result (list Byte.byte)))
    (p : Pipe) : Pipe :=
  match reads with
  | [] => p
  | read :: rest =>
      match serve_turn server read p with
      | (Continue, p') => serve_session server rest p'
      | (Break, p') => p'
      end
  end.

End IPC.

(** [IPCServer.__init__]. *)
Definition new_server : IPCServer := {| running := false; command_handlers := ∅ |}.

(** [IPCServer.register_handler]. *)
Definition register_handler (command : string) (handler_func : handler)
    (server : IPCServer) : IPCServer :=
  {| running := running server;
     command_handlers := <[command := handler_func]> (command_handlers server) |}.

(** [WingetUpdaterService._register_command_handlers], for the six bound
    methods of the service. *)
Definition _register_command_handlers
    (check_updates get_status get_updates get_last_check save_settings get_settings : handler)
    (server : IPCServer) : IPCServer :=
  register_handler "get_settings" get_settings
    (register_handler "save_settings" save_settings
       (register_handler "get_last_check" get_last_check
          (register_handler "get_updates" get_updates
             (register_handler "get_status" get_status
                (register_handler "check_updates" check_updates server))))).

(** ** The IPC client *)

Section Client.

(** [json.dumps], [str.encode('utf-8')] and the parameters of the server
    side. *)
Variable json_dumps : pyval -> string.
Variable encode_utf8 : string -> list Byte.byte.
Variable decode_utf8 : list Byte.byte -> option string.
Variable json_loads : string -> loads_outcome.
Variable isoformat_now : string.

(** [IPCMessage.to_json]. *)
Definition to_json (m : IPCMessage) : string :=
  json_dumps (PDict [("command", command m); ("data", data m);
                     ("timestamp", timestamp m)]).

(** The [try] block of [IPCClient.send_command] on an open pipe, for a
    pipe on which writing [raw] and reading the answer gives
    [exchange raw]. *)
Definition send_and_receive (exchange : list Byte.byte -> result (list Byte.byte))
    (command : string) (data : pyval) : result (option IPCMessage) :=
  let message := new_message isoformat_now command data in
  let message_json := to_json message in
  let? answer := exchange (encode_utf8 message_json) in
  let? response_json := (match decode_utf8 answer with
                         | Some t => Ok t
                         | None => Raise UnicodeDecodeError
                         end) in
  from_json json_loads response_json.

(** [IPCClient.send_command] on a client whose pipe is open: the response
    and whether the client kept its pipe. On a pipe error the client
    disconnects, and the pipe is forgotten when [CloseHandle] succeeds
    ([closes]); on any other exception it answers [None] and keeps the
    pipe. *)
Definition send_command (exchange : list Byte.byte -> result (list Byte.byte))
    (closes : bool) (command : string) (data : pyval) : option IPCMessage * bool :=
  match send_and_receive exchange command data with
  | Ok response => (response, true)
  | Raise (PipeError _) => (None, negb closes)
  | Raise _ => (None, true)
  end.

End Client.


(** ** The worlds and states of the worked examples *)

Module Scenario.

(** A reader of the documents listed in [table]; no other text of the
    examples is JSON. *)
Definition loads_from (table : list (string * pyval)) (txt : string) : option pyval :=
  Py.assoc txt table.

(** The same reader on the pipe. *)
Definition reads_from (table : list (string * pyval)) (txt : string) : loads_outcome :=
  match Py.assoc txt table with
  | Some v => Loaded v
  | None => NotJSON
  end.

(** A clock that counts the events. *)
Definition ticks (past : list event) : Z := Z.of_nat (length past).

Definition exited (code : Z) (out : string) : run_outcome :=
  Completed {| returncode := code; stdout := out; stderr := "" |}.

(** A machine on which every [winget] command exits with 1. *)
Definition winget_fails (past : list event) (cmd : list string) : run_outcome :=
  exited 1 "".

Definition quoted (s : string) : string := String "034" (s ++ String "034" "").

(** The text and the value of a document of the [Sources] shape with one
    package, whose version differs from the available one. *)
Definition sources_text : string :=
  "{" ++ quoted "Sources" ++ ": [{" ++ quoted "Packages" ++ ": {" ++ quoted "Foo.Bar"
  ++ ": {" ++ quoted "Name" ++ ": " ++ quoted "Foo Bar" ++ ", " ++ quoted "Version" ++ ": "
  ++ quoted "1.2.3" ++ ", " ++ quoted "AvailableVersion" ++ ": " ++ quoted "1.2.4"
  ++ "}}}]}".

Definition sources_document : pyval :=
  PDict [("Sources",
          PList [PDict [("Packages",
                         PDict [("Foo.Bar",
                                 PDict [("Name", PStr "Foo Bar");
                                        ("Version", PStr "1.2.3");
                                        ("AvailableVersion", PStr "1.2.4")])])]])].

Definition fresh : Sys := {| self := new_checker None; past := [] |}.

Definition foo_bar : UpdateRecord :=
  {| name := PStr "Foo Bar"; id := PStr "Foo.Bar";
     current_version := PStr "1.2.3"; available_version := PStr "1.2.4";
     source := Some "winget" |}.

(** A checker that holds the result of an earlier check. *)
Definition after_a_check : Sys :=
  {| self := {| config_manager := None; available_updates := [foo_bar];
                update_count := 1; last_check_time := Some 5;
                is_checking := false; pinned_packages := ∅ |};
     past := [] |}.

(** A checker in the middle of a check. *)
Definition busy : Sys :=
  {| self := set_is_checking true (self after_a_check); past := [] |}.

Definition foo_bar_line : string := "Foo Bar (x64)  Foo.Bar  1.2.3  1.2.4  winget".

Definition listing : string :=
  "Name           Id       Version  Available  Source
-------------------------------------------------
Foo Bar (x64)  Foo.Bar  1.2.3  1.2.4  winget
1 upgrades available.".

Definition upgraded (past : list event) : bool :=
  existsb (fun e => match e with
                    | Spawned cmd => bool_decide (cmd = upgrade_command)
                    | ClockRead => false
                    end) past.

(** A machine whose [winget] has no JSON output and no pins, lists one
    upgrade until [upgrade --all] has run, and none after. *)
Definition upgrade_works (past : list event) (cmd : list string) : run_outcome :=
  if bool_decide (cmd = base_command)
  then exited 0 (if upgraded past then "No updates found." else listing)
  else if bool_decide (cmd = upgrade_command) then exited 0 ""
  else exited 1 "".

(** The parameters of the IPC examples; their requests are ASCII, on
    which decoding UTF-8 changes nothing. *)
Definition decode_ascii (raw : list Byte.byte) : option string :=
  Some (string_of_list_byte raw).
Definition describe_exn (e : exn) : string := "error".
Definition describe_value (v : pyval) : string := "value".

Definition ping_text : string :=
  "{" ++ quoted "command" ++ ": " ++ quoted "ping" ++ ", " ++ quoted "data" ++ ": null, "
  ++ quoted "timestamp" ++ ": " ++ quoted "t" ++ "}".

Definition ping_document : pyval :=
  PDict [("command", PStr "ping"); ("data", PNone); ("timestamp", PStr "t")].

Definition documents : list (string * pyval) :=
  [("{}", PDict []); (ping_text, ping_document)].

Definition ping_server : IPCServer :=
  {| running := true;
     command_handlers := {[ "ping" := (fun _ => Ok (PStr "pong")) : handler ]} |}.

Definition open_pipe : Pipe := {| connected := true; written := [] |}.

End Scenario.

Import Scenario.

(** ** Definitions of the further properties *)

(** The id of a record is in the pin set. *)
Definition is_pinned_record (pins : gset string) (u : UpdateRecord) : bool :=
  match id u with
  | PStr i => bool_decide (i ∈ pins)
  | _ => false
  end.

(** The lines of an output, as [_parse_winget_output] splits it. *)
Definition output_lines (output : string) : list string :=
  Text.split_lines (Text.strip output).

(** The records of the items of a loop up to the first item on which the
    body raises, and whether one did. *)
Fixpoint entries_until_raise (entry : pyval -> result (option UpdateRecord))
    (items : list pyval) : list UpdateRecord * bool :=
  match items with
  | [] => ([], false)
  | item :: rest =>
      match entry item with
      | Raise _ => ([], true)
      | Ok o =>
          let (l, raised) := entries_until_raise entry rest in
          (match o with Some u => u :: l | None => l end, raised)
      end
  end.

(** A version of 4301 digits. *)
Definition long_version : string := Text.text (replicate 4301 "1"%char).

(** A listing whose last line says that nothing is to be updated. *)
Definition listing_then_none : string :=
  "Foo Bar (x64)  Foo.Bar  1.2.3  1.2.4  winget
No updates found.".

(** A checker for which [Foo.Bar] is pinned. *)
Definition foo_bar_pinned : Checker :=
  set_pinned_packages {[ "Foo.Bar" ]} (new_checker None).

(** A checker with a configuration manager whose second flag was never
    written, and one whose first flag cannot be read as a boolean. *)
Definition configured : Sys :=
  {| self := new_checker (Some {| include_pinned_updates := Flag false;
                                  include_unknown_versions := Absent;
                                  last_check := None |});
     past := [] |}.

Definition misconfigured : Sys :=
  {| self := new_checker (Some {| include_pinned_updates := NotBoolean;
                                  include_unknown_versions := Flag false;
                                  last_check := None |});
     past := [] |}.


(** A machine whose [winget] prints the document of the [Sources] shape. *)
Definition answers_sources (past : list event) (cmd : list string) : run_outcome :=
  exited 0 sources_text.

(** A machine on which [winget update] exits with 1 and writes nothing
    that can be decoded. *)
Definition exec_fails (past : list event) (cmd : list string) : exec_outcome :=
  Exited 1 None None.

(** A handler that cannot work on [None], and the message for the command
    of the tray application that the service does not register. *)
Definition strict_pong : handler :=
  fun v => match v with PNone => Raise TypeError | _ => Ok (PStr "pong") end.

Definition install_request : IPCMessage :=
  {| command := PStr "install_updates"; data := PDict []; timestamp := PStr "t0" |}.

(** A document of the [Data] shape whose second item is not a container,
    and the record of its first item. *)
Definition data_text : string :=
  "{" ++ quoted "Data" ++ ": [{" ++ quoted "Name" ++ ": " ++ quoted "Foo Bar" ++ ", "
  ++ quoted "Id" ++ ": " ++ quoted "Foo.Bar" ++ ", " ++ quoted "Version" ++ ": "
  ++ quoted "1.2.3" ++ ", " ++ quoted "AvailableVersion" ++ ": " ++ quoted "1.2.4"
  ++ "}, 3]}".

Definition data_items : list pyval :=
  [PDict [("Name", PStr "Foo Bar"); ("Id", PStr "Foo.Bar"); ("Version", PStr "1.2.3");
          ("AvailableVersion", PStr "1.2.4")];
   PInt 3].

Definition data_document : pyval := PDict [("Data", PList data_items)].

(** The count agrees with the list. *)
Definition count_is_length (x : Checker) : Prop :=
  update_count x = Z.of_nat (length (available_updates x)).

(** The settings that a call with the flags [ip] and [iu] reads can be
    read. *)
Definition settings_readable (ip iu : option bool) (x : Checker) : Prop :=
  forall c, config_manager x = Some c ->
            (ip = None -> include_pinned_updates c <> NotBoolean)
            /\ (iu = None -> include_unknown_versions c <> NotBoolean).

(** A machine whose first structured command prints [data_text] and on
    which every other command exits with 1. *)
Definition gives_up_half_way (past : list event) (cmd : list string) : run_outcome :=
  if bool_decide (cmd = (base_command ++ ["--format"; "json"])%list)
  then exited 0 data_text
  else exited 1 "".

(** The dict that [to_json] serialises. *)
Definition envelope (m : IPCMessage) : pyval :=
  PDict [("command", command m); ("data", data m); ("timestamp", timestamp m)].

(** The names under which the service registers its handlers. *)
Definition service_commands : list string :=
  ["check_updates"; "get_status"; "get_updates"; "get_last_check"; "save_settings";
   "get_settings"].

(** The two kinds of envelope the server builds. *)
Definition is_reply (m : IPCMessage) : Prop :=
  command m = PStr "response" \/ command m = PStr "error".

(** The pipe [p'] holds what [p] held and at most one more envelope, a
    reply. *)
Definition one_more_at_most (p p' : Pipe) : Prop :=
  exists l, written p' = (written p ++ l)%list
            /\ (length l <= 1)%nat /\ Forall is_reply l.

(** A writer of the documents listed in [table], the converse of
    [loads_from]. *)
Definition dumps_from (table : list (string * pyval)) (v : pyval) : string :=
  match List.find (fun e => Py.eq (snd e) v) table with
  | Some e => fst e
  | None => "null"
  end.

(** The envelopes of the client's [ping] and of the server's answer, as
    texts and as values. *)
Definition ping_request_text : string :=
  "{" ++ quoted "command" ++ ": " ++ quoted "ping" ++ ", " ++ quoted "data" ++ ": {}, "
  ++ quoted "timestamp" ++ ": " ++ quoted "t0" ++ "}".

Definition pong_text : string :=
  "{" ++ quoted "command" ++ ": " ++ quoted "response" ++ ", " ++ quoted "data" ++ ": "
  ++ quoted "pong" ++ ", " ++ quoted "timestamp" ++ ": " ++ quoted "t1" ++ "}".

Definition ping_request : IPCMessage :=
  {| command := PStr "ping"; data := PDict []; timestamp := PStr "t0" |}.

Definition pong : IPCMessage :=
  {| command := PStr "response"; data := PStr "pong"; timestamp := PStr "t1" |}.

Definition exchanged : list (string * pyval) :=
  [(ping_request_text, envelope ping_request); (pong_text, envelope pong)].

(** * Properties *)

(** ** The matcher on sample texts *)

Example split_on_wide_gaps :
  Re.py_split Re.two_spaces "Foo Bar (x64)  Foo.Bar  1.2.3   1.2.4  winget"
  = ["Foo Bar (x64)"; "Foo.Bar"; "1.2.3"; "1.2.4"; "winget"].
Proof. vm_compute. reflexivity. Qed.

Example split_keeps_empty_ends : Re.py_split Re.two_spaces "  a b  " = [""; "a b"; ""].
Proof. vm_compute. reflexivity. Qed.

Example search_first_dotted_number :
  Re.py_search Re.dotted_version "v12x3.4.55.b" = Some "3.4.55"
  /\ Re.py_search Re.dotted_version "1..2.3." = Some "2.3"
  /\ Re.py_search Re.dotted_version "< 1.2" = Some "1.2"
  /\ Re.py_search Re.dotted_version "12" = None.
Proof. repeat split; vm_compute; reflexivity. Qed.

Example sub_parenthesised_groups :
  Re.py_sub Re.parenthesised "Foo Bar (x64) baz  (a)(b) (c" = "Foo Bar baz (c".
Proof. vm_compute. reflexivity. Qed.

Example sub_trailing_version :
  Re.py_sub Re.trailing_version "Foo 1.2 Bar  10.2.3" = "Foo 1.2 Bar".
Proof. vm_compute. reflexivity. Qed.

Example findall_digit_runs : Re.py_findall Re.number "a12b3.45" = ["12"; "3"; "45"].
Proof. vm_compute. reflexivity. Qed.

Example listing_parses :
  available_updates
    (_parse_winget_output Scenario.listing None None (new_checker None))
  = [Scenario.foo_bar].
Proof. vm_compute. reflexivity. Qed.

(** ** The comparability predicate *)

Lemma is_empty_spec (s : string) : Text.is_empty s = true <-> s = "".
Proof. destruct s; simpl; split; congruence. Qed.

Lemma eqb_spec (a b : string) : Text.eqb a b = true <-> a = b.
Proof. unfold Text.eqb. apply bool_decide_eq_true. Qed.

Lemma any_char_spec (p : ascii -> bool) (s : string) :
  Text.any_char p s = true <-> exists c, c ∈ Text.chars s /\ p c = true.
Proof.
  unfold Text.any_char. rewrite existsb_exists.
  split; intros [c [H1 H2]]; exists c; split; auto; by apply list_elem_of_In.
Qed.

Lemma decimal_isdigit (c : ascii) : Text.is_decimal c = true -> Text.isdigit c = true.
Proof. unfold Text.isdigit. intros ->. reflexivity. Qed.

Lemma rep_loop_step {R : Type} (body : list ascii -> (list ascii -> option R) -> option R)
    (k : list ascii -> option R) (n min : nat) (s : list ascii) :
  Re.rep_loop body k (S n) min s =
  match body s (fun s1 => if (length s1 <? length s)%nat
                          then Re.rep_loop body k n (pred min) s1 else None) with
  | Some x => Some x
  | None => match min with O => k s | S _ => None end
  end.
Proof. reflexivity. Qed.

Lemma go_digit {R : Type} (s : list ascii) (k : list ascii -> option R) :
  Re.go Re.digit s k =
  match s with
  | c :: t => if Text.is_decimal c then k t else None
  | [] => None
  end.
Proof. reflexivity. Qed.

(** A run of digits with no lower bound always matches, and never grows
    the text. *)
Lemma digits_loop_some (n : nat) (s : list ascii) :
  exists rest, Re.rep_loop (Re.go Re.digit) Some (S n) 0 s = Some rest
               /\ (length rest <= length s)%nat.
Proof.
  revert s. induction n as [|n IH]; intros s; rewrite rep_loop_step, go_digit.
  - destruct s as [|c t]; [eauto|].
    destruct (Text.is_decimal c); [|eauto].
    destruct (length t <? length (c :: t))%nat; simpl; eauto.
  - destruct s as [|c t]; [eauto|].
    destruct (Text.is_decimal c); [|eauto].
    destruct (length t <? length (c :: t))%nat; [|eauto].
    cbn [pred]. destruct (IH t) as [rest [-> Hle]]. exists rest.
    split; [reflexivity|]. simpl. lia.
Qed.

Lemma match_number_digit (c : ascii) (t : list ascii) :
  Text.is_decimal c = true -> exists n, Re.match_at Re.number (c :: t) = Some (S n).
Proof.
  intros Hc. unfold Re.match_at, Re.number.
  cbn [Re.go]. rewrite rep_loop_step, go_digit, Hc.
  replace (length t <? length (c :: t))%nat with true
    by (symmetry; apply Nat.ltb_lt; simpl; lia).
  cbn [pred length].
  destruct (digits_loop_some (length t) t) as [rest [Hr Hle]].
  rewrite Hr.
  exists (length t - length rest)%nat. simpl. f_equal. lia.
Qed.

Lemma match_number_other (s : list ascii) :
  match s with c :: _ => Text.is_decimal c = false | [] => True end ->
  Re.match_at Re.number s = None.
Proof.
  intros H. unfold Re.match_at, Re.number. cbn [Re.go].
  rewrite rep_loop_step, go_digit.
  destruct s as [|c t]; [reflexivity|]. rewrite H. reflexivity.
Qed.

Lemma findall_number_nonempty (l : list ascii) :
  Re.findall_from Re.number 0 l <> [] <-> existsb Text.is_decimal l = true.
Proof.
  induction l as [|c t IH]; [simpl; split; [congruence|discriminate]|].
  cbn [Re.findall_from existsb]. destruct (Text.is_decimal c) eqn:Hc.
  - destruct (match_number_digit c t Hc) as [n ->]. split; [reflexivity|discriminate].
  - rewrite (match_number_other (c :: t) Hc). simpl. exact IH.
Qed.

Lemma digits_found (v : string) :
  Text.any_char Text.isdigit v = true /\ Re.py_findall Re.number v <> []
  <-> has_decimal_digit v.
Proof.
  unfold Re.py_findall, has_decimal_digit. rewrite findall_number_nonempty.
  split.
  - intros [_ H]. by apply (any_char_spec Text.is_decimal).
  - intros H. split.
    + apply any_char_spec. destruct H as [c [H1 H2]]. exists c.
      split; [done | by apply decimal_isdigit].
    + by apply (any_char_spec Text.is_decimal).
Qed.

Lemma chars_text (l : list ascii) : Text.chars (Text.text l) = l.
Proof. apply list_ascii_of_string_of_list_ascii. Qed.

(** *** The digit runs that [findall] returns *)

Lemma take_drop_while (p : ascii -> bool) (l : list ascii) :
  (Text.take_while p l ++ Text.drop_while p l)%list = l.
Proof.
  induction l as [|c t IH]; [reflexivity|]. cbn.
  destruct (p c); [cbn; by rewrite IH | reflexivity].
Qed.

Lemma drop_take_while (p : ascii -> bool) (l : list ascii) :
  drop (length (Text.take_while p l)) l = Text.drop_while p l.
Proof.
  induction l as [|c t IH]; [reflexivity|]. cbn.
  destruct (p c); [exact IH | reflexivity].
Qed.

Lemma take_take_while (p : ascii -> bool) (l : list ascii) :
  take (length (Text.take_while p l)) l = Text.take_while p l.
Proof.
  induction l as [|c t IH]; [reflexivity|]. cbn.
  destruct (p c); [cbn; by rewrite IH | reflexivity].
Qed.

Lemma take_while_drop_while (p : ascii -> bool) (l : list ascii) :
  Text.take_while p (Text.drop_while p l) = [].
Proof.
  induction l as [|c t IH]; [reflexivity|]. cbn.
  destruct (p c) eqn:E; [exact IH|]. cbn. by rewrite E.
Qed.

Lemma take_while_all (p : ascii -> bool) (l : list ascii) :
  Forall (fun c => p c = true) (Text.take_while p l).
Proof.
  induction l as [|c t IH]; [constructor|]. cbn.
  destruct (p c) eqn:E; [by constructor | constructor].
Qed.

Lemma take_while_app_all (p : ascii -> bool) (l k : list ascii) :
  Forall (fun c => p c = true) l -> Text.take_while p k = [] ->
  Text.take_while p (l ++ k) = l.
Proof.
  intros H K. induction H as [|c t Hc _ IH]; [exact K|]. cbn. by rewrite Hc, IH.
Qed.

Lemma drop_while_shorter (p : ascii -> bool) (l : list ascii) :
  (length (Text.drop_while p l) <= length l)%nat.
Proof.
  induction l as [|c t IH]; [reflexivity|]. cbn. destruct (p c); cbn; lia.
Qed.

(** The greedy loop of [\d*] consumes the digits at the head of the
    text. *)
Lemma digits_loop_exact (n : nat) (s : list ascii) :
  (length s <= n)%nat ->
  Re.rep_loop (Re.go Re.digit) Some (S n) 0 s = Some (Text.drop_while Text.is_decimal s).
Proof.
  revert s. induction n as [|n IH]; intros s H; rewrite rep_loop_step, go_digit.
  - destruct s; [reflexivity | cbn in H; lia].
  - destruct s as [|c t]; [reflexivity|]. cbn [Text.drop_while].
    destruct (Text.is_decimal c); [|reflexivity].
    replace (length t <? length (c :: t))%nat with true
      by (symmetry; apply Nat.ltb_lt; cbn; lia).
    cbn [pred]. rewrite IH by (cbn in H; lia). reflexivity.
Qed.

Lemma match_number_exact (c : ascii) (t : list ascii) :
  Text.is_decimal c = true ->
  Re.match_at Re.number (c :: t) = Some (S (length (Text.take_while Text.is_decimal t))).
Proof.
  intros Hc. unfold Re.match_at, Re.number.
  cbn [Re.go]. rewrite rep_loop_step, go_digit, Hc.
  replace (length t <? length (c :: t))%nat with true
    by (symmetry; apply Nat.ltb_lt; simpl; lia).
  cbn [pred length]. rewrite digits_loop_exact by lia. cbn. f_equal.
  pose proof (f_equal length (take_drop_while Text.is_decimal t)) as L.
  rewrite length_app in L. lia.
Qed.

Lemma findall_skip (r : Re.re) (n : nat) (l : list ascii) :
  Re.findall_from r n l = Re.findall_from r 0 (drop n l).
Proof.
  revert n. induction l as [|c t IH]; intros n; destruct n as [|n]; try reflexivity.
  cbn [Re.findall_from drop]. apply IH.
Qed.

Lemma findall_number_cons (c : ascii) (t : list ascii) :
  Re.findall_from Re.number 0 (c :: t)
  = if Text.is_decimal c
    then Text.text (c :: Text.take_while Text.is_decimal t)
         :: Re.findall_from Re.number 0 (Text.drop_while Text.is_decimal t)
    else Re.findall_from Re.number 0 t.
Proof.
  cbn [Re.findall_from]. destruct (Text.is_decimal c) eqn:Hc.
  - rewrite (match_number_exact c t Hc), findall_skip, drop_take_while.
    cbn [take]. by rewrite take_take_while.
  - by rewrite (match_number_other (c :: t) Hc).
Qed.

(** The runs that [findall] returns are the longest ones: all of them are
    converted exactly when no more digits than the limit start at any
    position of the text. *)
Lemma findall_number_converts (l : list ascii) :
  Forall converts (Re.findall_from Re.number 0 l)
  <-> forall i, (length (Text.take_while Text.is_decimal (drop i l))
                 <= Py.int_max_str_digits)%nat.
Proof.
  assert (G : forall n l, (length l <= n)%nat ->
              Forall converts (Re.findall_from Re.number 0 l)
              <-> forall i, (length (Text.take_while Text.is_decimal (drop i l))
                             <= Py.int_max_str_digits)%nat).
  { clear l. induction n as [|n IH]; intros l Hn.
    - destruct l; [|cbn in Hn; lia]. split; [|constructor].
      intros _ i. rewrite drop_nil. cbn. lia.
    - destruct l as [|c t].
      { split; [|constructor]. intros _ i. rewrite drop_nil. cbn. lia. }
      cbn in Hn. rewrite findall_number_cons. destruct (Text.is_decimal c) eqn:Hc.
      + rewrite Forall_cons.
        rewrite (IH (Text.drop_while Text.is_decimal t))
          by (pose proof (drop_while_shorter Text.is_decimal t); lia).
        unfold converts at 1. rewrite chars_text.
        set (X := c :: Text.take_while Text.is_decimal t).
        assert (E : c :: t = (X ++ Text.drop_while Text.is_decimal t)%list).
        { unfold X. cbn. by rewrite take_drop_while. }
        assert (FX : Forall (fun c => Text.is_decimal c = true) X).
        { unfold X. constructor; [exact Hc | apply take_while_all]. }
        rewrite E. split.
        * intros [A B] i. destruct (decide (i <= length X)%nat) as [Hi|Hi].
          -- rewrite drop_app_le by exact Hi.
             rewrite take_while_app_all;
               [| by apply Forall_drop | apply take_while_drop_while].
             rewrite length_drop. lia.
          -- rewrite drop_app_ge by lia. apply B.
        * intros H. split.
          -- specialize (H 0%nat). rewrite drop_0 in H.
             rewrite take_while_app_all in H;
               [exact H | exact FX | apply take_while_drop_while].
          -- intros i. specialize (H (length X + i)%nat).
             rewrite drop_app_ge in H by lia.
             by replace (length X + i - length X)%nat with i in H by lia.
      + rewrite (IH t) by lia. split.
        * intros H [|i]; [cbn; rewrite Hc; cbn; lia | apply H].
        * intros H i. apply (H (S i)). }
  apply (G (length l)). reflexivity.
Qed.

Lemma findall_converts (v : string) :
  Forall converts (Re.py_findall Re.number v) <-> digit_runs_convert v.
Proof. apply findall_number_converts. Qed.

(** The comprehension over the runs returns a list of the same length when
    every run is converted, and raises when one is not. *)
Lemma ints_cases (parts : list string) :
  (Forall converts parts /\ exists l, Py.ints parts = Ok l /\ length l = length parts)
  \/ (~ Forall converts parts /\ exists e, Py.ints parts = Raise e).
Proof.
  induction parts as [|part rest IH].
  - left. split; [constructor|]. by exists [].
  - cbn [Py.ints]. unfold Py.int.
    destruct (Py.int_max_str_digits <? length (Text.chars part))%nat eqn:L.
    + right. apply Nat.ltb_lt in L. split; [|by eexists].
      intros H. apply Forall_cons in H as [H _]. unfold converts in H. lia.
    + apply Nat.ltb_ge in L. cbn [and_then].
      destruct IH as [[F (l & -> & Hl)] | [F (e & ->)]]; cbn [and_then].
      * left. split; [by constructor|]. eexists. split; [reflexivity|]. cbn. by rewrite Hl.
      * right. split; [|by eexists]. intros H. by apply Forall_cons in H as [_ H].
Qed.

Lemma valid_comparison_strings (c a : string) :
  exists b, _is_valid_version_comparison (PStr c) (PStr a) = Ok b
            /\ (b = true <->
                comparable c a /\ digit_runs_convert c /\ digit_runs_convert a).
Proof.
  unfold _is_valid_version_comparison, comparable, is_unknown_word. cbn [Py.truthy].
  rewrite !negb_involutive.
  destruct (Text.is_empty c) eqn:Ec.
  { exists false. split; [done|]. apply is_empty_spec in Ec. split; [done|tauto]. }
  destruct (Text.is_empty a) eqn:Ea.
  { exists false. split; [done|]. apply is_empty_spec in Ea. split; [done|tauto]. }
  cbn [Py.str_of and_then].
  destruct (Text.eqb (Text.lower c) "unknown") eqn:Uc.
  { exists false. split; [done|]. apply eqb_spec in Uc. split; [done|tauto]. }
  destruct (Text.eqb (Text.lower a) "unknown") eqn:Ua.
  { exists false. split; [done|]. apply eqb_spec in Ua. split; [done|tauto]. }
  assert (Nc : c <> "") by (intros ->; discriminate).
  assert (Na : a <> "") by (intros ->; discriminate).
  assert (Kc : Text.lower c <> "unknown")
    by (intros H; apply eqb_spec in H; congruence).
  assert (Ka : Text.lower a <> "unknown")
    by (intros H; apply eqb_spec in H; congruence).
  pose proof (digits_found c) as Dc. pose proof (digits_found a) as Da.
  pose proof (findall_converts c) as Cc. pose proof (findall_converts a) as Ca.
  destruct (Text.any_char Text.isdigit c) eqn:Ic; cbn [negb orb].
  2:{ exists false. split; [done|]. split; [done|].
      intros ((_ & _ & _ & _ & H & _) & _).
      apply Dc in H as [H _]. discriminate. }
  destruct (Text.any_char Text.isdigit a) eqn:Ia; cbn [negb orb].
  2:{ exists false. split; [done|]. split; [done|].
      intros ((_ & _ & _ & _ & _ & H) & _).
      apply Da in H as [H _]. discriminate. }
  destruct (ints_cases (Re.py_findall Re.number c)) as [[Fc (lc & -> & Lc)] | [Fc (e & ->)]];
    cbn [and_then].
  2:{ exists false. split; [done|]. split; [done|]. intros (_ & H & _).
      destruct Fc. by apply Cc. }
  destruct (ints_cases (Re.py_findall Re.number a)) as [[Fa (la & -> & La)] | [Fa (e & ->)]];
    cbn [and_then].
  2:{ exists false. split; [by destruct lc|]. split; [done|]. intros (_ & _ & H).
      destruct Fa. by apply Ca. }
  destruct lc as [|x xs].
  { exists false. split; [done|]. split; [done|].
    intros ((_ & _ & _ & _ & H & _) & _).
    apply Dc in H as [_ H]. destruct (Re.py_findall Re.number c); [done | discriminate]. }
  destruct la as [|y ys].
  { exists false. split; [done|]. split; [done|].
    intros ((_ & _ & _ & _ & _ & H) & _).
    apply Da in H as [_ H]. destruct (Re.py_findall Re.number a); [done | discriminate]. }
  exists true. split; [done|]. split; [|done]. intros _.
  split; [|split; [by apply Cc | by apply Ca]].
  repeat split; try done.
  - apply Dc. split; [done|]. intros E. rewrite E in Lc. discriminate.
  - apply Da. split; [done|]. intros E. rewrite E in La. discriminate.
Qed.

(** C5, as the code has it: on every pair of version strings the check
    returns, and it returns true exactly when both strings are non-empty,
    neither is "unknown" whatever the case, each contains a decimal digit,
    and no run of decimal digits of either is longer than [int] converts
    (4300 digits): the [ValueError] of such a conversion is caught and the
    check answers false. *)
Theorem comparability_check_meets_predicate (c a : string) :
  exists b, _is_valid_version_comparison (PStr c) (PStr a) = Ok b
            /\ (b = true <->
                comparable c a /\ digit_runs_convert c /\ digit_runs_convert a).
Proof. exact (valid_comparison_strings c a). Qed.

(** The check accepts only strings: on a value of another type it answers
    false or raises. *)
Lemma valid_comparison_values (cv av : pyval) :
  _is_valid_version_comparison cv av = Ok true ->
  exists c a, cv = PStr c /\ av = PStr a /\ comparable c a.
Proof.
  intros H.
  assert (Hc : exists c, cv = PStr c).
  { unfold _is_valid_version_comparison in H.
    destruct cv; try (by eauto);
      cbn [Py.truthy Py.str_of and_then] in H;
      repeat (match type of H with
              | context [if ?b then _ else _] => destruct b
              end; try discriminate). }
  destruct Hc as [c ->].
  assert (Ha : exists a, av = PStr a).
  { unfold _is_valid_version_comparison in H.
    cbn [Py.str_of and_then] in H.
    destruct (negb (Py.truthy (PStr c))); [discriminate|].
    destruct (negb (Py.truthy av)); [discriminate|].
    destruct (Text.eqb (Text.lower c) "unknown"); [discriminate|].
    destruct av; try (by eauto); discriminate. }
  destruct Ha as [a ->]. exists c, a. split; [done|]. split; [done|].
  destruct (valid_comparison_strings c a) as [b [Hb Hiff]].
  rewrite Hb in H. injection H as ->. by apply (proj1 Hiff eq_refl).
Qed.

(** ** The invariant of the result list *)

Lemma flag_on_true (f : option bool) : flag_on f = true -> f = Some true.
Proof. destruct f as [[|]|]; simpl; congruence. Qed.

Lemma comparable_known (c a : string) :
  comparable c a -> ~ (c = "" \/ is_unknown_word c).
Proof. intros (H1 & _ & H3 & _) [H|H]; auto. Qed.

Lemma not_pinned_or_included (self : Checker) (include_pinned : option bool) (x : pyval) :
  pinned_and_excluded self include_pinned x = Ok false ->
  forall i, x = PStr i -> i ∈ pinned_packages self -> include_pinned = Some true.
Proof.
  unfold pinned_and_excluded. intros H i -> Hin.
  destruct (flag_on include_pinned) eqn:F; [by apply flag_on_true|].
  cbn in H. injection H as H. apply bool_decide_eq_false in H. contradiction.
Qed.

Lemma str_eq_false (c a : string) : Py.eq (PStr c) (PStr a) = false -> c <> a.
Proof.
  cbn. intros H E. apply (proj2 (eqb_spec c a)) in E. congruence.
Qed.

Lemma parse_line_admissible (self : Checker) (ip iu : option bool) (line : string)
    (u : UpdateRecord) :
  parse_line self ip iu line = Ok (Some u) ->
  admissible (pinned_packages self) ip iu u.
Proof.
  unfold parse_line.
  destruct (columns line) as [|name0 [|id_str [|version0 [|available0 rest]]]];
    try discriminate.
  destruct (is_unknown_text (clean_version version0) && negb (flag_on iu));
    [discriminate|].
  destruct (_is_valid_version_comparison (PStr (clean_version version0))
              (PStr (clean_version available0))) as [[|]|] eqn:V;
    cbn [and_then negb]; try discriminate.
  destruct (pinned_and_excluded self ip (PStr id_str)) as [[|]|] eqn:P;
    cbn [and_then]; try discriminate.
  match goal with |- (if ?b then _ else _) = _ -> _ => destruct b eqn:B end;
    [|discriminate].
  intros H. injection H as <-.
  apply valid_comparison_values in V as (c & a & Ec & Ea & Hcmp).
  injection Ec as <-. injection Ea as <-.
  exists (clean_version version0), (clean_version available0).
  cbn [current_version available_version id].
  split; [reflexivity|]. split; [reflexivity|]. split; [|split; [exact Hcmp|split]].
  - apply andb_prop in B as [_ B]. apply negb_true_iff in B.
    by apply str_eq_false.
  - intros i Hi. by apply (not_pinned_or_included self ip (PStr id_str)).
  - intros Hu. by destruct (comparable_known _ _ Hcmp).
Qed.

Lemma process_line_admissible (self : Checker) (ip iu : option bool) (line : string)
    (u : UpdateRecord) :
  process_line self ip iu line = Some u ->
  admissible (pinned_packages self) ip iu u.
Proof.
  unfold process_line. destruct (_should_skip_line line); [discriminate|].
  destruct (parse_line self ip iu line) as [r|e] eqn:E; [|discriminate].
  intros ->. by apply parse_line_admissible in E.
Qed.

Lemma append_admissible (pins : gset string) (ip iu : option bool) (x : Checker)
    (u : UpdateRecord) :
  result_admissible pins ip iu x -> admissible pins ip iu u ->
  result_admissible pins ip iu (append_update u x).
Proof.
  intros [Hp Hall] Hu. split; [exact Hp|].
  cbn. apply Forall_app. split; [exact Hall|]. by constructor.
Qed.

Lemma section_admissible (pins : gset string) (ip iu : option bool)
    (section_lines : list string) (x : Checker) :
  result_admissible pins ip iu x ->
  result_admissible pins ip iu (_process_output_section section_lines ip iu x).
Proof.
  revert x. induction section_lines as [|line rest IH]; intros x Hx; [exact Hx|].
  cbn [_process_output_section]. apply IH.
  destruct (process_line x ip iu line) as [u|] eqn:E; [|exact Hx].
  apply append_admissible; [exact Hx|].
  apply process_line_admissible in E. destruct Hx as [<- _]. exact E.
Qed.

Lemma parse_output_admissible (output : string) (ip iu : option bool) (x : Checker) :
  result_admissible (pinned_packages x) ip iu (_parse_winget_output output ip iu x).
Proof.
  unfold _parse_winget_output.
  assert (H0 : result_admissible (pinned_packages x) ip iu (set_available_updates [] x))
    by (split; [reflexivity | constructor]).
  destruct (existsb says_no_updates _); [exact H0|].
  match goal with
  | |- result_admissible _ _ _ (set_update_count _ (fold_left ?f ?l ?y)) =>
      assert (H : result_admissible (pinned_packages x) ip iu (fold_left f l y))
  end.
  { generalize (_split_output_into_sections
                  (Text.split_lines (Text.strip output)) section_markers).
    intros sections. revert H0. generalize (set_available_updates [] x).
    induction sections as [|sec rest IH]; intros y Hy; [exact Hy|].
    cbn [fold_left]. apply IH. destruct sec; [exact Hy|].
    by apply section_admissible. }
  destruct H as [Hp Hall]. split; [exact Hp | exact Hall].
Qed.

(** ** Reasoning about method bodies *)

Lemma preserves_ret {A : Type} (I : Checker -> Prop) (a : A) : preserves I (ret a).
Proof. intros s H. exact H. Qed.

Lemma preserves_lift {A : Type} (I : Checker -> Prop) (r : result A) : preserves I (lift r).
Proof. intros s H. exact H. Qed.

Lemma preserves_get_self (I : Checker -> Prop) : preserves I get_self.
Proof. intros s H. exact H. Qed.

Lemma preserves_modify (I : Checker -> Prop) (f : Checker -> Checker) :
  (forall x, I x -> I (f x)) -> preserves I (modify f).
Proof. intros Hf s H. cbn. by apply Hf. Qed.

Lemma preserves_bind {A B : Type} (I : Checker -> Prop) (m : M A) (f : A -> M B) :
  preserves I m -> (forall a, preserves I (f a)) -> preserves I (bind m f).
Proof.
  intros Hm Hf s H. unfold bind. specialize (Hm s H).
  destruct (m s) as [[a|e] s1]; cbn in Hm; [by apply Hf | exact Hm].
Qed.

Lemma preserves_try_except {A : Type} (I : Checker -> Prop) (m : M A) (h : exn -> M A) :
  preserves I m -> (forall e, preserves I (h e)) -> preserves I (try_except m h).
Proof.
  intros Hm Hh s H. unfold try_except. specialize (Hm s H).
  destruct (m s) as [[a|e] s1]; cbn in Hm; [exact Hm | by apply Hh].
Qed.

Lemma preserves_for_each {A : Type} (I : Checker -> Prop) (l : list A) (body : A -> M unit) :
  (forall x, preserves I (body x)) -> preserves I (for_each l body).
Proof.
  intros Hb. induction l as [|x t IH]; cbn [for_each].
  - apply preserves_ret.
  - apply preserves_bind; [apply Hb | intros _; exact IH].
Qed.

Lemma bind_eq {A B : Type} (m : M A) (f : A -> M B) (s : Sys) :
  bind m f s = match m s with
               | (Ok a, s') => f a s'
               | (Raise e, s') => (Raise e, s')
               end.
Proof. reflexivity. Qed.

Lemma run_eq (subprocess_run : list event -> list string -> run_outcome)
    (cmd : list string) (s : Sys) :
  run subprocess_run cmd s =
  match subprocess_run (past s) cmd with
  | Completed p => (Ok p, {| self := self s; past := Spawned cmd :: past s |})
  | RunRaised e => (Raise e, {| self := self s; past := Spawned cmd :: past s |})
  end.
Proof. reflexivity. Qed.

Lemma modify_eq (f : Checker -> Checker) (s : Sys) :
  modify f s = (Ok tt, {| self := f (self s); past := past s |}).
Proof. reflexivity. Qed.

Lemma lift_eq {A : Type} (r : result A) (s : Sys) : lift r s = (r, s).
Proof. reflexivity. Qed.

Section EngineFacts.

Variable json_loads : string -> option pyval.
Variable subprocess_run : list event -> list string -> run_outcome.
Variable datetime_now : list event -> Z.

Lemma preserves_run (I : Checker -> Prop) (cmd : list string) :
  preserves I (run subprocess_run cmd).
Proof. intros s H. unfold run. destruct (subprocess_run (past s) cmd); exact H. Qed.

Lemma preserves_now (I : Checker -> Prop) : preserves I (now datetime_now).
Proof. intros s H. exact H. Qed.

Lemma preserves_set_last_check (I : Checker -> Prop) :
  (forall c x, I x -> I (set_config_manager c x)) ->
  preserves I (set_last_check_if_configured datetime_now).
Proof.
  intros Hc. unfold set_last_check_if_configured.
  apply preserves_bind; [apply preserves_get_self|]. intros x.
  destruct (config_manager x); [|apply preserves_ret].
  apply preserves_bind; [apply preserves_now|]. intros t.
  apply preserves_modify. intros y. apply Hc.
Qed.

(** *** The entries of the structured parser *)

Lemma data_entry_admissible (x : Checker) (ip iu : option bool) (item : pyval)
    (u : UpdateRecord) :
  data_entry x ip iu item = Ok (Some u) -> admissible (pinned_packages x) ip iu u.
Proof.
  unfold data_entry. intros H.
  destruct (all_in _ item) as [[|]|]; cbn [and_then negb] in H; try discriminate.
  destruct (Py.getitem item "Version") as [cv|]; cbn [and_then] in H; [|discriminate].
  destruct (Py.getitem item "AvailableVersion") as [av|]; cbn [and_then] in H;
    [|discriminate].
  destruct (is_unknown_json cv && negb (flag_on iu)); [discriminate|].
  destruct (_is_valid_version_comparison cv av) as [[|]|] eqn:V;
    cbn [and_then negb] in H; try discriminate.
  apply valid_comparison_values in V as (c & a & -> & -> & Hcmp).
  destruct (flag_on ip) eqn:F; cbn [and_then] in H.
  - destruct (negb (Py.eq (PStr c) (PStr a))) eqn:B; [|discriminate].
    destruct (Py.getitem item "Name") as [n|]; cbn [and_then] in H; [|discriminate].
    destruct (Py.getitem item "Id") as [i|]; cbn [and_then] in H; [|discriminate].
    injection H as <-. exists c, a. cbn [current_version available_version id].
    split; [reflexivity|]. split; [reflexivity|]. split; [|split; [exact Hcmp|split]].
    + apply negb_true_iff in B. by apply str_eq_false.
    + intros _ _ _. by apply flag_on_true.
    + intros Hu. by destruct (comparable_known _ _ Hcmp).
  - destruct (Py.getitem item "Id") as [i|]; cbn [and_then] in H; [|discriminate].
    destruct (_is_package_pinned x i) as [[|]|] eqn:P; cbn [and_then] in H;
      try discriminate.
    destruct (negb (Py.eq (PStr c) (PStr a))) eqn:B; [|discriminate].
    destruct (Py.getitem item "Name") as [n|]; cbn [and_then] in H; [|discriminate].
    injection H as <-. exists c, a. cbn [current_version available_version id].
    split; [reflexivity|]. split; [reflexivity|]. split; [|split; [exact Hcmp|split]].
    + apply negb_true_iff in B. by apply str_eq_false.
    + intros k -> Hin. cbn in P. injection P as P.
      apply bool_decide_eq_false in P. contradiction.
    + intros Hu. by destruct (comparable_known _ _ Hcmp).
Qed.

Lemma sources_entry_admissible (x : Checker) (ip iu : option bool) (pkg_id pkg_info : pyval)
    (u : UpdateRecord) :
  sources_entry x ip iu pkg_id pkg_info = Ok (Some u) ->
  admissible (pinned_packages x) ip iu u.
Proof.
  unfold sources_entry. intros H.
  destruct (Py.contains "Version" pkg_info) as [hv|]; cbn [and_then] in H; [|discriminate].
  match type of H with and_then ?m _ = _ =>
    destruct m as [[|]|]; cbn [and_then negb] in H; try discriminate end.
  destruct (Py.get pkg_info "Version" _) as [cv|]; cbn [and_then] in H; [|discriminate].
  destruct (Py.get pkg_info "AvailableVersion" _) as [av|]; cbn [and_then] in H;
    [|discriminate].
  destruct (is_unknown_json cv && negb (flag_on iu)); [discriminate|].
  destruct (_is_valid_version_comparison cv av) as [[|]|] eqn:V;
    cbn [and_then negb] in H; try discriminate.
  apply valid_comparison_values in V as (c & a & -> & -> & Hcmp).
  destruct (pinned_and_excluded x ip pkg_id) as [[|]|] eqn:P; cbn [and_then] in H;
    try discriminate.
  destruct (negb (Py.eq (PStr c) (PStr a))) eqn:B; [|discriminate].
  destruct (Py.get pkg_info "Name" pkg_id) as [n|]; cbn [and_then] in H; [|discriminate].
  injection H as <-. exists c, a. cbn [current_version available_version id].
  split; [reflexivity|]. split; [reflexivity|]. split; [|split; [exact Hcmp|split]].
  - apply negb_true_iff in B. by apply str_eq_false.
  - intros i Hi. by apply (not_pinned_or_included x ip pkg_id).
  - intros Hu. by destruct (comparable_known _ _ Hcmp).
Qed.

Lemma append_entry_admissible (pins : gset string) (ip iu : option bool)
    (entry : Checker -> result (option UpdateRecord)) :
  (forall x u, entry x = Ok (Some u) -> admissible (pinned_packages x) ip iu u) ->
  preserves (result_admissible pins ip iu) (append_entry entry).
Proof.
  intros He s H. unfold append_entry, bind, get_self, lift.
  destruct (entry (self s)) as [[u|]|e] eqn:E; cbn; try exact H.
  apply append_admissible; [exact H|].
  apply He in E. destruct H as [<- _]. exact E.
Qed.

Lemma admissible_any_config (pins : gset string) (ip iu : option bool)
    (c : option ConfigManager) (x : Checker) :
  result_admissible pins ip iu x -> result_admissible pins ip iu (set_config_manager c x).
Proof. intros H. exact H. Qed.

(** Whatever the structured parser leaves in the result list, also when it
    gives up half-way, meets the invariant. *)
Lemma extract_updates_admissible (pins : gset string) (ip iu : option bool) (data : pyval) :
  preserves (result_admissible pins ip iu) (extract_updates ip iu data).
Proof.
  unfold extract_updates.
  apply preserves_bind; [apply preserves_lift|]. intros has_sources.
  destruct has_sources.
  - unfold sources_branch.
    apply preserves_bind; [apply preserves_lift|]. intros sources.
    apply preserves_bind; [apply preserves_lift|]. intros packages.
    apply preserves_bind; [apply preserves_lift|]. intros items.
    apply preserves_for_each. intros kv. apply append_entry_admissible.
    intros x u. apply sources_entry_admissible.
  - apply preserves_bind; [apply preserves_lift|]. intros has_data.
    destruct has_data; [|apply preserves_ret].
    unfold data_branch.
    apply preserves_bind; [apply preserves_lift|]. intros items.
    apply preserves_for_each. intros item. apply append_entry_admissible.
    intros x u. apply data_entry_admissible.
Qed.

Lemma finish_parse_admissible (pins : gset string) (ip iu : option bool) :
  preserves (result_admissible pins ip iu) (finish_parse datetime_now).
Proof.
  unfold finish_parse. apply preserves_bind.
  { apply preserves_modify. intros x Hx. exact Hx. }
  intros _. apply preserves_bind.
  { apply preserves_set_last_check. intros c x. apply admissible_any_config. }
  intros _. apply preserves_bind; [apply preserves_now|]. intros t.
  apply preserves_bind.
  { apply preserves_modify. intros x Hx. exact Hx. }
  intros _. apply preserves_bind; [apply preserves_get_self|]. intros x.
  apply preserves_ret.
Qed.

(** Whatever the structured parser leaves in the result list, also when it
    gives up half-way, meets the invariant. *)
Lemma parse_json_admissible (output : string) (ip iu : option bool) (s : Sys) :
  result_admissible (pinned_packages (self s)) ip iu
    (self (snd (_parse_winget_json json_loads datetime_now output ip iu s))).
Proof.
  set (pins := pinned_packages (self s)).
  unfold _parse_winget_json.
  match goal with |- context [try_except (bind (modify ?f) ?k) ?h] =>
    assert (Hk : preserves (result_admissible pins ip iu) (try_except (k tt) h)) end.
  { apply preserves_try_except; [|intros; apply preserves_ret].
    apply preserves_bind; [apply preserves_lift|]. intros data.
    apply preserves_bind; [apply extract_updates_admissible|]. intros _.
    apply finish_parse_admissible. }
  match goal with |- context [try_except (bind (modify ?f) ?k) ?h] =>
    specialize (Hk {| self := f (self s); past := past s |});
    change (snd (try_except (bind (modify f) k) h s))
      with (snd (try_except (k tt) h {| self := f (self s); past := past s |})) end.
  apply Hk. split; [reflexivity | constructor].
Qed.

(** C2: every entry of the result list of the free-text parser, and every
    entry that the structured parser leaves in the list, has two version
    strings that differ and are comparable, an id outside the pin set
    unless [include_pinned] is true, and a known current version unless
    [include_unknown] is true. *)
Theorem result_entries_meet_invariant :
  (forall (output : string) (ip iu : option bool) (x : Checker),
     Forall (admissible (pinned_packages x) ip iu)
       (available_updates (_parse_winget_output output ip iu x)))
  /\
  (forall (output : string) (ip iu : option bool) (s : Sys),
     Forall (admissible (pinned_packages (self s)) ip iu)
       (available_updates
          (self (snd (_parse_winget_json json_loads datetime_now output ip iu s))))).
Proof.
  split.
  - intros output ip iu x. apply (parse_output_admissible output ip iu x).
  - intros output ip iu s. apply (parse_json_admissible output ip iu s).
Qed.

(** *** The [Sources] shape *)

(** A document with a [Sources] key never parses: [packages] is a list,
    and the loop over [packages.items()] raises before its first turn. *)
Lemma sources_shape_fails (output : string) (data : pyval) (ip iu : option bool) (s : Sys) :
  json_loads output = Some data ->
  Py.contains "Sources" data = Ok true ->
  _parse_winget_json json_loads datetime_now output ip iu s
  = (Ok None, {| self := set_available_updates [] (self s); past := past s |}).
Proof.
  intros Hl Hs. unfold _parse_winget_json, try_except, extract_updates, bind, modify, lift.
  cbn [fst snd self past]. rewrite Hl, Hs. unfold sources_branch, bind, lift.
  destruct (let? v := Py.getitem data "Sources" in Py.iter v) as [sources|e];
    [|reflexivity].
  destruct (collect_packages sources []) as [packages|e]; reflexivity.
Qed.

End EngineFacts.

(** ** Unknown versions *)

Lemma lower_char_decimal (c : ascii) :
  Text.is_decimal c = true -> Text.is_decimal (Text.lower_char c) = true.
Proof.
  destruct c as [[] [] [] [] [] [] [] []]; vm_compute; congruence.
Qed.

Lemma unknown_word_no_digit (v : string) :
  is_unknown_word v -> existsb Text.is_decimal (Text.chars v) = false.
Proof.
  unfold is_unknown_word, Text.lower. intros H.
  apply (f_equal Text.chars) in H. rewrite chars_text in H.
  destruct (existsb Text.is_decimal (Text.chars v)) eqn:E; [|reflexivity].
  assert (D : existsb Text.is_decimal (map Text.lower_char (Text.chars v)) = true).
  { apply existsb_exists in E as [c [Hin Hc]]. apply existsb_exists.
    exists (Text.lower_char c). split; [by apply in_map | by apply lower_char_decimal]. }
  rewrite H in D. vm_compute in D. discriminate.
Qed.

Lemma match_dotted_none (l : list ascii) :
  match l with c :: _ => Text.is_decimal c = false | [] => True end ->
  Re.match_at Re.dotted_version l = None.
Proof.
  intros H. unfold Re.match_at, Re.dotted_version. cbn [Re.go].
  rewrite rep_loop_step, go_digit.
  destruct l as [|c t]; [reflexivity|]. rewrite H. reflexivity.
Qed.

Lemma search_dotted_none (l : list ascii) :
  existsb Text.is_decimal l = false -> Re.search Re.dotted_version l = None.
Proof.
  induction l as [|c t IH]; intros H.
  - cbn [Re.search]. by rewrite match_dotted_none.
  - cbn [existsb] in H. apply orb_false_elim in H as [Hc Ht].
    cbn [Re.search]. rewrite (match_dotted_none (c :: t) Hc). by apply IH.
Qed.

(** A column that is empty or the word "unknown" is its own version. *)
Lemma clean_version_unknown (v : string) :
  v = "" \/ is_unknown_word v -> clean_version v = v.
Proof.
  intros H. unfold clean_version, Re.py_search.
  rewrite search_dotted_none; [reflexivity|].
  destruct H as [->|H]; [reflexivity | by apply unknown_word_no_digit].
Qed.

Lemma valid_unknown_false (v : string) (av : pyval) :
  v = "" \/ is_unknown_word v -> _is_valid_version_comparison (PStr v) av = Ok false.
Proof.
  intros H. unfold _is_valid_version_comparison. cbn [Py.truthy Py.str_of and_then].
  destruct H as [->|H]; [reflexivity|].
  destruct (negb (negb (Text.is_empty v))); [reflexivity|].
  destruct (negb (Py.truthy av)); [reflexivity|].
  apply eqb_spec in H. rewrite H. reflexivity.
Qed.

(** C4: a candidate whose current-version column is empty or "unknown"
    (whatever the case) adds nothing to the result, whatever
    [include_unknown] is: on the text path the line is dropped, on the
    structured path the item is. *)
Theorem unknown_version_never_listed (v : string) (include_unknown : option bool) :
  v = "" \/ is_unknown_word v ->
  (forall (self : Checker) (ip : option bool) (line name id a : string) (rest : list string),
     columns line = name :: id :: v :: a :: rest ->
     process_line self ip include_unknown line = None)
  /\
  (forall (self : Checker) (ip : option bool) (item : pyval),
     Py.getitem item "Version" = Ok (PStr v) ->
     data_entry self ip include_unknown item = Ok None).
Proof.
  intros Hv. split.
  - intros self ip line name id a rest Hc. unfold process_line.
    destruct (_should_skip_line line); [reflexivity|].
    unfold parse_line. rewrite Hc, (clean_version_unknown v Hv).
    destruct (is_unknown_text v && negb (flag_on include_unknown)); [reflexivity|].
    rewrite (valid_unknown_false v _ Hv). reflexivity.
  - intros self ip item Hg. unfold data_entry.
    destruct (all_in _ item) as [[|]|e] eqn:A; cbn [and_then negb].
    + rewrite Hg. cbn [and_then].
      destruct (Py.getitem item "AvailableVersion") as [av|e] eqn:G; cbn [and_then].
      * destruct (is_unknown_json (PStr v) && negb (flag_on include_unknown));
          [reflexivity|].
        rewrite (valid_unknown_false v av Hv). reflexivity.
      * exfalso. destruct item; try discriminate.
        cbn in A, G. repeat case_bool_decide; try discriminate.
        match goal with X : is_Some (Py.assoc "AvailableVersion" _) |- _ =>
          destruct X as [w Hw]; rewrite Hw in G; discriminate end.
    + reflexivity.
    + exfalso. destruct item; try discriminate. cbn in A.
      repeat case_bool_decide; discriminate.
Qed.

(** ** Checking and installing *)

Section EngineClaims.

Variable json_loads : string -> option pyval.
Variable subprocess_run : list event -> list string -> run_outcome.
Variable datetime_now : list event -> Z.

(** C6: while a check is in progress, [check_updates] without [force]
    returns the last known count and changes nothing: the checker object
    (result list, count, time of the last check, pin set) is the same and
    no event, so no subprocess, is added. *)
Theorem check_in_progress_returns_last_count (s : Sys) (ip iu : option bool) :
  is_checking (self s) = true ->
  check_updates json_loads subprocess_run datetime_now false ip iu s = (Ok (update_count (self s)), s).
Proof.
  intros H. unfold check_updates, bind, get_self. rewrite H. reflexivity.
Qed.

(** With both flags given, [check_updates] reads no setting and cannot
    raise. *)
Lemma refresh_returns (s : Sys) :
  fst (_refresh_pinned_packages subprocess_run s) = Ok tt.
Proof.
  unfold _refresh_pinned_packages, bind, modify, try_except, run. cbn [self past].
  destruct (subprocess_run (past s) ["winget"; "pin"; "list"]) as [p|e]; [|reflexivity].
  destruct (returncode p =? 0); reflexivity.
Qed.

Lemma check_updates_returns (force a b : bool) (s : Sys) :
  exists n, fst (check_updates json_loads subprocess_run datetime_now force (Some a) (Some b) s) = Ok n.
Proof.
  unfold check_updates, bind, get_self.
  destruct (is_checking (self s) && negb force); [by eexists|].
  unfold begin_check, bind.
  assert (F : forall g t, from_config g (Some a) t = (Ok (Some a), t)
                          /\ from_config g (Some b) t = (Ok (Some b), t)).
  { intros g t. unfold from_config. by destruct (config_manager (self t)). }
  rewrite (proj1 (F _ _)), (proj2 (F _ _)). unfold modify at 1 2 3. cbn [self past].
  match goal with |- context [_refresh_pinned_packages subprocess_run ?t] =>
    pose proof (refresh_returns t) as R;
    destruct (_refresh_pinned_packages subprocess_run t) as [r t1] end.
  cbn in R. subst r. cbn [ret fst snd]. unfold try_finally, try_except.
  match goal with |- context [check_attempt ?j ?r ?d ?x ?y ?t] =>
    destruct (check_attempt j r d x y t) as [[n|e] t2] end; by eexists.
Qed.

(** C10: when the forced check that opens [install_all_updates] finds
    nothing, the function returns true in the state that check left: no
    upgrade command is started and no second check is made. *)
Theorem install_with_nothing_to_do (s : Sys) :
  available_updates (self (snd (check_updates json_loads subprocess_run datetime_now true (Some true) (Some true) s))) = [] ->
  install_all_updates json_loads subprocess_run datetime_now s = (Ok true, snd (check_updates json_loads subprocess_run datetime_now true (Some true) (Some true) s)).
Proof.
  intros H. unfold install_all_updates, bind.
  destruct (check_updates_returns true true true s) as [n Hn].
  destruct (check_updates json_loads subprocess_run datetime_now true (Some true) (Some true) s) as [r s1].
  cbn in Hn, H |- *. subst r. unfold get_self. cbn [self]. rewrite H. reflexivity.
Qed.

Lemma still_pending_nil (pre post : list UpdateRecord) :
  still_pending pre post = [] <->
  forall u c, u ∈ pre -> c ∈ post -> Py.eq (id c) (id u) = false.
Proof.
  unfold still_pending. induction pre as [|u t IH]; cbn [flat_map].
  - split; [|reflexivity]. intros _ u c Hu. by apply elem_of_nil in Hu.
  - destruct (existsb (fun current_update => Py.eq (id current_update) (id u)) post) eqn:E.
    + split; [discriminate|]. intros H. exfalso.
      apply existsb_exists in E as [c [Hc Hq]].
      rewrite (H u c) in Hq; [discriminate | by left | by apply list_elem_of_In].
    + cbn [app]. rewrite IH. split.
      * intros H v c Hv Hc. apply elem_of_cons in Hv as [->|Hv]; [|by apply H].
        destruct (Py.eq (id c) (id u)) eqn:Q; [|reflexivity].
        assert (X : existsb (fun current_update => Py.eq (id current_update) (id u)) post
                    = true)
          by (apply existsb_exists; exists c; split; [by apply list_elem_of_In | exact Q]).
        congruence.
      * intros H v c Hv Hc. apply H; [by right | exact Hc].
Qed.

(** The three ways the [try] block of the installation ends. *)
Lemma install_and_verify_run (pre : list UpdateRecord) (t : Sys) :
  let t2 := {| self := self t; past := Spawned upgrade_command :: past t |} in
  match subprocess_run (past t) upgrade_command with
  | RunRaised _ =>
      install_and_verify json_loads subprocess_run datetime_now pre t = (Ok false, t2)
  | Completed p =>
      if returncode p =? 0
      then
        let r := check_updates json_loads subprocess_run datetime_now true None None t2 in
        install_and_verify json_loads subprocess_run datetime_now pre t
        = (Ok match fst r with
              | Ok _ => match still_pending pre (available_updates (self (snd r))) with
                        | [] => true
                        | _ => false
                        end
              | Raise _ => false
              end, snd r)
      else install_and_verify json_loads subprocess_run datetime_now pre t = (Ok false, t2)
  end.
Proof.
  intros t2. unfold install_and_verify, try_except. rewrite bind_eq, run_eq. fold t2.
  destruct (subprocess_run (past t) upgrade_command) as [p|e]; [|reflexivity].
  destruct (returncode p =? 0); [|reflexivity].
  rewrite bind_eq.
  destruct (check_updates json_loads subprocess_run datetime_now true None None t2)
    as [[n|e] t3]; [|reflexivity].
  cbn [fst snd]. rewrite bind_eq. unfold get_self.
  destruct (still_pending pre (available_updates (self t3))); reflexivity.
Qed.

(** C7: when the opening check found something, [install_all_updates]
    returns true only if the upgrade command exited with zero and no id of
    the opening result is an id of the result of the check made after it;
    and when the command exited with zero and such an id is still there,
    it returns false. *)
Theorem install_true_only_if_verified (s : Sys) :
  let s1 := snd (check_updates json_loads subprocess_run datetime_now
                   true (Some true) (Some true) s) in
  let pre := available_updates (self s1) in
  let s2 := {| self := self s1; past := Spawned upgrade_command :: past s1 |} in
  let s3 := snd (check_updates json_loads subprocess_run datetime_now true None None s2) in
  pre <> [] ->
  (fst (install_all_updates json_loads subprocess_run datetime_now s) = Ok true ->
     exists p, subprocess_run (past s1) upgrade_command = Completed p
               /\ returncode p = 0
               /\ snd (install_all_updates json_loads subprocess_run datetime_now s) = s3
               /\ forall u c, u ∈ pre -> c ∈ available_updates (self s3) ->
                              Py.eq (id c) (id u) = false)
  /\
  (forall p, subprocess_run (past s1) upgrade_command = Completed p ->
             returncode p = 0 ->
             (exists u c, u ∈ pre /\ c ∈ available_updates (self s3)
                          /\ Py.eq (id c) (id u) = true) ->
             install_all_updates json_loads subprocess_run datetime_now s = (Ok false, s3)).
Proof.
  intros s1 pre s2 s3 Hpre.
  assert (Hinst : install_all_updates json_loads subprocess_run datetime_now s =
                  install_and_verify json_loads subprocess_run datetime_now pre s1).
  { unfold install_all_updates, bind at 1.
    destruct (check_updates_returns true true true s) as [n Hn].
    subst pre s1.
    destruct (check_updates json_loads subprocess_run datetime_now
                true (Some true) (Some true) s) as [r t].
    cbn [fst snd] in Hn, Hpre |- *. subst r. unfold bind at 1, get_self at 1.
    cbn [self]. destruct (available_updates (self t)); [congruence | reflexivity]. }
  rewrite Hinst. clear Hinst.
  pose proof (install_and_verify_run pre s1) as V. cbv zeta in V. fold s2 in V.
  destruct (subprocess_run (past s1) upgrade_command) as [p|e].
  2:{ rewrite V. split; [cbn; discriminate | intros p' Hp'; discriminate]. }
  destruct (returncode p =? 0) eqn:Z.
  2:{ rewrite V. split; [cbn; discriminate|]. intros p' Hp' Hz. injection Hp' as <-.
      apply Z.eqb_neq in Z. contradiction. }
  apply Z.eqb_eq in Z. fold s3 in V. rewrite V. cbn [fst snd].
  destruct (fst (check_updates json_loads subprocess_run datetime_now true None None s2))
    as [n|e].
  - destruct (still_pending pre (available_updates (self s3))) as [|i l] eqn:P.
    + pose proof (proj1 (still_pending_nil _ _) P) as P'. split.
      * intros _. exists p. split; [reflexivity|]. split; [exact Z|].
        split; [reflexivity | exact P'].
      * intros p' _ _ (u & c & Hu & Hc & Q). rewrite (P' u c Hu Hc) in Q. discriminate.
    + split; [discriminate | reflexivity].
  - split; [discriminate | reflexivity].
Qed.

(** *** A failed check *)

Lemma append_entry_keeps (t : option Z) (n : Z)
    (entry : Checker -> result (option UpdateRecord)) :
  preserves (count_and_time t n) (append_entry entry).
Proof.
  intros s H. unfold append_entry, bind, get_self, lift.
  destruct (entry (self s)) as [[u|]|e]; exact H.
Qed.

Lemma extract_updates_keeps (t : option Z) (n : Z) (ip iu : option bool) (data : pyval) :
  preserves (count_and_time t n) (extract_updates ip iu data).
Proof.
  unfold extract_updates.
  apply preserves_bind; [apply preserves_lift|]. intros has_sources.
  destruct has_sources.
  - unfold sources_branch.
    apply preserves_bind; [apply preserves_lift|]. intros sources.
    apply preserves_bind; [apply preserves_lift|]. intros packages.
    apply preserves_bind; [apply preserves_lift|]. intros items.
    apply preserves_for_each. intros kv. apply append_entry_keeps.
  - apply preserves_bind; [apply preserves_lift|]. intros has_data.
    destruct has_data; [|apply preserves_ret].
    unfold data_branch.
    apply preserves_bind; [apply preserves_lift|]. intros items.
    apply preserves_for_each. intros item. apply append_entry_keeps.
Qed.

Lemma finish_parse_some (s : Sys) :
  exists n s', finish_parse datetime_now s = (Ok (Some n), s').
Proof.
  unfold finish_parse, set_last_check_if_configured, bind, modify, get_self, now, ret.
  cbn. destruct (config_manager (self s)); eauto.
Qed.

(** The structured parser does not raise, and when it gives [None] the
    count and the time of the last check are as before. *)
Lemma parse_json_result (output : string) (ip iu : option bool) (s : Sys) :
  exists r s', _parse_winget_json json_loads datetime_now output ip iu s = (Ok r, s')
               /\ (r = None -> count_and_time (last_check_time (self s))
                                 (update_count (self s)) (self s')).
Proof.
  unfold _parse_winget_json, try_except. rewrite bind_eq, modify_eq, bind_eq, lift_eq.
  destruct (json_loads output) as [data|].
  2:{ eexists _, _. split; [reflexivity|]. intros _. by split. }
  rewrite bind_eq.
  match goal with |- context [extract_updates ip iu data ?t] =>
    pose proof (extract_updates_keeps (last_check_time (self s)) (update_count (self s))
                  ip iu data t (conj eq_refl eq_refl)) as K;
    destruct (extract_updates ip iu data t) as [[[]|e] t1] end; cbn [snd] in K.
  - destruct (finish_parse_some t1) as (n & t2 & ->).
    eexists _, _. split; [reflexivity | discriminate].
  - eexists _, _. split; [reflexivity|]. intros _. exact K.
Qed.

Lemma try_commands_result (commands : list (list string)) (ip iu : option bool) (s : Sys) :
  exists r s', try_commands json_loads subprocess_run datetime_now commands ip iu s
               = (Ok r, s')
               /\ (r = None -> count_and_time (last_check_time (self s))
                                 (update_count (self s)) (self s')).
Proof.
  revert s. induction commands as [|cmd rest IH]; intros s; cbn [try_commands].
  - eexists _, _. split; [reflexivity|]. intros _. by split.
  - rewrite bind_eq. unfold try_except. rewrite bind_eq, run_eq.
    set (t := {| self := self s; past := Spawned cmd :: past s |}).
    destruct (subprocess_run (past s) cmd) as [p|e].
    2:{ cbn [ret]. apply (IH t). }
    destruct (returncode p =? 0).
    2:{ cbn [ret]. apply (IH t). }
    rewrite bind_eq.
    destruct (parse_json_result (stdout p) ip iu t) as (r & t1 & -> & Hr).
    cbn [ret]. eexists _, _. split; [reflexivity | exact Hr].
Qed.

Lemma check_json_result (ip iu : option bool) (s : Sys) :
  exists r s', _check_updates_json json_loads subprocess_run datetime_now
                 base_command ip iu s = (Ok r, s')
               /\ (r = None -> count_and_time (last_check_time (self s))
                                 (update_count (self s)) (self s')).
Proof.
  unfold _check_updates_json, try_except.
  destruct (try_commands_result (json_commands base_command) ip iu s)
    as (r & t & -> & Hr).
  eexists _, _. split; [reflexivity | exact Hr].
Qed.

Lemma preserves_from_config (I : Checker -> Prop)
    (getter : ConfigManager -> result bool * ConfigManager) (include : option bool) :
  (forall c x, I x -> I (set_config_manager c x)) ->
  preserves I (from_config getter include).
Proof.
  intros Hc s H. unfold from_config.
  destruct (config_manager (self s)) as [c|]; [|exact H].
  destruct include; [exact H|].
  destruct (getter c) as [r c']. cbn. by apply Hc.
Qed.

Lemma preserves_refresh (I : Checker -> Prop) :
  (forall X x, I x -> I (set_pinned_packages X x)) ->
  preserves I (_refresh_pinned_packages subprocess_run).
Proof.
  intros Hp. unfold _refresh_pinned_packages.
  apply preserves_bind; [apply preserves_modify; intros x; apply Hp|]. intros _.
  apply preserves_try_except; [|intros; apply preserves_ret].
  apply preserves_bind; [apply preserves_run|]. intros p.
  destruct (returncode p =? 0); [|apply preserves_ret].
  apply preserves_modify. intros x. apply Hp.
Qed.

(** The opening of a check leaves the time of the last check and resets
    the count. *)
Lemma begin_check_result (ip iu : option bool) (s s1 : Sys)
    (flags : option bool * option bool) :
  begin_check subprocess_run ip iu s = (Ok flags, s1) ->
  count_and_time (last_check_time (self s)) 0 (self s1).
Proof.
  unfold begin_check. rewrite bind_eq.
  pose proof (preserves_from_config (fun x => last_check_time x = last_check_time (self s))
                get_include_pinned_updates ip (fun c x H => H) s eq_refl) as H1.
  destruct (from_config get_include_pinned_updates ip s) as [[a|e] t1]; [|discriminate].
  cbn [snd] in H1. rewrite bind_eq.
  pose proof (preserves_from_config (fun x => last_check_time x = last_check_time (self s))
                get_include_unknown_versions iu (fun c x H => H) t1 H1) as H2.
  destruct (from_config get_include_unknown_versions iu t1) as [[b|e] t2]; [|discriminate].
  cbn [snd] in H2.
  rewrite bind_eq, modify_eq, bind_eq, modify_eq, bind_eq, modify_eq, bind_eq.
  match goal with |- context [_refresh_pinned_packages subprocess_run ?t] =>
    pose proof (preserves_refresh (count_and_time (last_check_time (self s)) 0)
                  (fun X x H => H) t (conj H2 eq_refl)) as H3;
    destruct (_refresh_pinned_packages subprocess_run t) as [[[]|e] t3] end;
    [|discriminate].
  cbn [snd] in H3. intros H. injection H as _ <-. exact H3.
Qed.

(** The opening of a check empties the result list. *)
Lemma begin_check_empties (ip iu : option bool) (s s1 : Sys)
    (flags : option bool * option bool) :
  begin_check subprocess_run ip iu s = (Ok flags, s1) ->
  available_updates (self s1) = [].
Proof.
  unfold begin_check. rewrite bind_eq.
  destruct (from_config get_include_pinned_updates ip s) as [[a|e] t1]; [|discriminate].
  rewrite bind_eq.
  destruct (from_config get_include_unknown_versions iu t1) as [[b|e] t2]; [|discriminate].
  rewrite bind_eq, modify_eq, bind_eq, modify_eq, bind_eq, modify_eq, bind_eq.
  match goal with |- context [_refresh_pinned_packages subprocess_run ?t] =>
    pose proof (preserves_refresh (fun x => available_updates x = [])
                  (fun X x H => H) t eq_refl) as H3;
    destruct (_refresh_pinned_packages subprocess_run t) as [[[]|e] t3] end;
    [|discriminate].
  cbn [snd] in H3. intros H. injection H as _ <-. exact H3.
Qed.

(** C3, as the code has it: when the command of the text path exits with
    a code other than zero after the structured attempts gave nothing,
    [check_updates] returns 0, the time of the last check is the one held
    before the call, the count is 0 and the guard is cleared. The result
    list held before the call is not restored: the list was emptied when
    the check began, and after the call it is the list the structured
    attempts left (the records a structured parse had collected before it
    gave up, if any), whatever the count says. *)
Theorem text_failure_returns_zero (s s1 s2 : Sys) (force : bool)
    (ip iu ip' iu' : option bool) (p : CompletedProcess) :
  is_checking (self s) && negb force = false ->
  begin_check subprocess_run ip iu s = (Ok (ip', iu'), s1) ->
  _check_updates_json json_loads subprocess_run datetime_now base_command ip' iu' s1
  = (Ok None, s2) ->
  subprocess_run (past s2) base_command = Completed p ->
  returncode p <> 0 ->
  exists s3,
    check_updates json_loads subprocess_run datetime_now force ip iu s = (Ok 0, s3)
    /\ last_check_time (self s3) = last_check_time (self s)
    /\ update_count (self s3) = 0
    /\ is_checking (self s3) = false
    /\ past s3 = Spawned base_command :: past s2
    /\ available_updates (self s1) = []
    /\ available_updates (self s3) = available_updates (self s2).
Proof.
  intros Hguard Hbegin Hjson Hrun Hrc.
  pose proof (begin_check_result ip iu s s1 _ Hbegin) as [T1 N1].
  pose proof (begin_check_empties ip iu s s1 _ Hbegin) as L1.
  destruct (check_json_result ip' iu' s1) as (r & t & Hj & Hr).
  rewrite Hjson in Hj. injection Hj as <- <-.
  destruct (Hr eq_refl) as [T2 N2].
  unfold check_updates. rewrite bind_eq. unfold get_self at 1. rewrite Hguard.
  rewrite bind_eq, Hbegin. cbn [fst snd]. unfold try_finally, try_except, check_attempt.
  rewrite bind_eq, Hjson. unfold text_fallback. rewrite bind_eq, run_eq, Hrun.
  apply Z.eqb_neq in Hrc. rewrite Hrc. cbn [negb]. rewrite bind_eq, modify_eq.
  cbn [ret self past]. eexists. split; [reflexivity|]. cbn.
  repeat split; congruence.
Qed.

End EngineClaims.

(** ** The request loop of the IPC server *)

Section IPCClaims.

Variable decode_utf8 : list Byte.byte -> option string.
Variable json_loads : string -> loads_outcome.
Variable str_of_exn : exn -> string.
Variable str_of_value : pyval -> string.
Variable isoformat_now : string.

Lemma from_json_envelope (txt : string) (d c x t : pyval) :
  json_loads txt = Loaded d ->
  Py.getitem d "command" = Ok c ->
  Py.getitem d "data" = Ok x ->
  Py.getitem d "timestamp" = Ok t ->
  from_json json_loads txt
  = Ok (Some {| command := c; data := message_data x; timestamp := t |}).
Proof.
  intros Hl Hc Hx Ht. unfold from_json. rewrite Hl, Hc, Hx, Ht. reflexivity.
Qed.

(** What leaves [from_json] is no pipe error. *)
Lemma from_json_raises (txt : string) (e : exn) :
  from_json json_loads txt = Raise e -> e = TypeError \/ e = RecursionError.
Proof.
  unfold from_json. destruct (json_loads txt) as [d| |];
    [|discriminate | intros [= <-]; by right].
  assert (G : forall k y, Py.getitem d k = Raise y -> y = KeyError \/ y = TypeError).
  { intros k y. destruct d; cbn; try (intros [= <-]; by right).
    destruct (Py.assoc k items); [discriminate | intros [= <-]; by left]. }
  destruct (Py.getitem d "command") as [c|y] eqn:Ec; cbn [and_then].
  2:{ destruct (G _ _ Ec) as [-> | ->]; [discriminate | intros [= <-]; by left]. }
  destruct (Py.getitem d "data") as [x|y] eqn:Ex; cbn [and_then].
  2:{ destruct (G _ _ Ex) as [-> | ->]; [discriminate | intros [= <-]; by left]. }
  destruct (Py.getitem d "timestamp") as [t|y] eqn:Et; cbn [and_then]; [discriminate|].
  destruct (G _ _ Et) as [-> | ->]; [discriminate | intros [= <-]; by left].
Qed.

(** C9, as the code has it: for a request received on a connected pipe the
    turn of the loop is one of these. When [from_json] answers [None] (the
    text is not JSON, or it is a JSON object without one of the keys
    [command], [data], [timestamp]) nothing is written and the loop
    continues. In every other case exactly one envelope is written. For an
    envelope that was read, it is the response of the registered handler
    when that handler returns, and it has the command "error" when the
    handler raises and when no handler is registered under the command;
    the loop continues, unless the command cannot be looked up, which ends
    the connection after the error envelope. When the bytes are not UTF-8
    and when reading the envelope raises, the error envelope is written
    and the loop ends the connection. *)
Theorem one_reply_unless_unparsed (server : IPCServer) (raw : list Byte.byte) (p : Pipe) :
  connected p = true ->
  let turn_taken := serve_request decode_utf8 json_loads str_of_exn str_of_value
                      isoformat_now server raw p in
  let writes (reply : IPCMessage) : Pipe :=
    {| connected := true; written := written p ++ [reply] |} in
  match decode_utf8 raw with
  | None =>
      turn_taken
      = (Break, writes (error_message isoformat_now (str_of_exn UnicodeDecodeError)))
  | Some txt =>
      match from_json json_loads txt with
      | Ok None => turn_taken = (Continue, p)
      | Raise e =>
          turn_taken = (Break, writes (error_message isoformat_now (str_of_exn e)))
      | Ok (Some m) =>
          exists reply,
            turn_taken
            = (match find_handler server (command m) with
               | Ok _ => Continue
               | Raise _ => Break
               end, writes reply)
            /\ (forall (name : string) (h : handler),
                  command m = PStr name -> command_handlers server !! name = Some h ->
                  match h (data m) with
                  | Ok r => reply = new_message isoformat_now "response" r
                  | Raise e => reply = error_message isoformat_now (str_of_exn e)
                  end)
            /\ ((forall name, command m = PStr name ->
                              command_handlers server !! name = None) ->
                command reply = PStr "error")
      end
  end.
Proof.
  intros Hp turn_taken writes. subst turn_taken writes. unfold serve_request.
  destruct (decode_utf8 raw) as [txt|]; cbn [and_then].
  2:{ unfold WriteFile. rewrite Hp. reflexivity. }
  destruct (from_json json_loads txt) as [[m|]|e] eqn:J; cbn [and_then].
  3:{ destruct (from_json_raises txt e J) as [-> | ->];
        unfold WriteFile; rewrite Hp; reflexivity. }
  2:{ reflexivity. }
  unfold _handle_command.
  destruct (find_handler server (command m)) as [[h|]|e] eqn:F; cbn [and_then].
  - destruct (h (data m)) as [r|e] eqn:R; unfold WriteFile; rewrite Hp;
      eexists; (split; [reflexivity|]); split.
    + intros name h' Hc Hh. rewrite Hc in F. unfold find_handler in F.
      rewrite Hh in F. injection F as <-. by rewrite R.
    + intros Hnone. destruct (command m); try discriminate. unfold find_handler in F.
      rewrite (Hnone s eq_refl) in F. discriminate.
    + intros name h' Hc Hh. rewrite Hc in F. unfold find_handler in F.
      rewrite Hh in F. injection F as <-. by rewrite R.
    + intros _. reflexivity.
  - unfold WriteFile; rewrite Hp; eexists; (split; [reflexivity|]); split.
    + intros name h Hc Hh. rewrite Hc in F. unfold find_handler in F.
      rewrite Hh in F. discriminate.
    + intros _. reflexivity.
  - assert (He : e = TypeError) by (destruct (command m); cbn in F; congruence).
    subst e. unfold WriteFile. rewrite Hp.
    eexists. split; [reflexivity|]. split.
    + intros name h Hc. rewrite Hc in F. cbn in F. discriminate.
    + intros _. reflexivity.
Qed.

End IPCClaims.

(** ** Worked examples *)

(** C1, at a document of the [Sources] shape with one package that needs
    an update: the structured parser gives [None] and an empty result
    list, where the specification asks for one record. The code extends a
    list with the packages and then asks the list for [items()]. *)
Theorem sources_document_gives_no_record :
  exists s',
    _parse_winget_json (loads_from [(sources_text, sources_document)]) ticks
      sources_text (Some true) (Some true) fresh = (Ok None, s')
    /\ available_updates (self s') = [].
Proof. eexists. split; vm_compute; reflexivity. Qed.

(** C8: the line of the specification is not skipped and gives exactly one
    record, with the name without its parenthesised part. *)
Theorem foo_bar_line_parses :
  _should_skip_line foo_bar_line = false
  /\ available_updates
       (_process_output_section [foo_bar_line] (Some true) (Some true) (new_checker None))
     = [foo_bar]
  /\ available_updates
       (_parse_winget_output foo_bar_line (Some true) (Some true) (new_checker None))
     = [foo_bar].
Proof. repeat split; vm_compute; reflexivity. Qed.

Lemma unknown_version_never_listed_witness :
  is_unknown_word "Unknown"
  /\ process_line (new_checker None) (Some true) (Some true)
       "Baz  Baz.Q  Unknown  2.0  winget" = None.
Proof.
  split; [reflexivity|].
  apply (proj1 (unknown_version_never_listed "Unknown" (Some true)
                  (or_intror eq_refl)))
    with (name := "Baz") (id := "Baz.Q") (a := "2.0") (rest := ["winget"]).
  vm_compute. reflexivity.
Defined.

Lemma check_in_progress_returns_last_count_witness :
  is_checking (self busy) = true
  /\ check_updates (loads_from []) winget_fails ticks false None None busy = (Ok 1, busy).
Proof.
  split; [reflexivity|].
  apply (check_in_progress_returns_last_count (loads_from []) winget_fails ticks busy).
  reflexivity.
Defined.

Lemma install_with_nothing_to_do_witness :
  install_all_updates (loads_from []) winget_fails ticks fresh
  = (Ok true, snd (check_updates (loads_from []) winget_fails ticks
                     true (Some true) (Some true) fresh)).
Proof.
  apply (install_with_nothing_to_do (loads_from []) winget_fails ticks fresh).
  vm_compute. reflexivity.
Defined.

Lemma install_true_only_if_verified_witness :
  fst (install_all_updates (loads_from []) upgrade_works ticks fresh) = Ok true
  /\ exists p,
       upgrade_works
         (past (snd (check_updates (loads_from []) upgrade_works ticks
                       true (Some true) (Some true) fresh)))
         upgrade_command = Completed p
       /\ returncode p = 0.
Proof.
  assert (Hfst : fst (install_all_updates (loads_from []) upgrade_works ticks fresh)
                 = Ok true) by (vm_compute; reflexivity).
  split; [exact Hfst|].
  assert (Hpre : available_updates
                   (self (snd (check_updates (loads_from []) upgrade_works ticks
                                 true (Some true) (Some true) fresh))) <> [])
    by (vm_compute; discriminate).
  destruct (install_true_only_if_verified (loads_from []) upgrade_works ticks fresh Hpre)
    as [A _].
  destruct (A Hfst) as (p & Hp & Hz & _). exists p. split; assumption.
Defined.

Lemma text_failure_returns_zero_witness :
  exists s3,
    check_updates (loads_from [(data_text, data_document)]) gives_up_half_way ticks
      false None None after_a_check
    = (Ok 0, s3)
    /\ last_check_time (self s3) = Some 5
    /\ update_count (self s3) = 0
    /\ is_checking (self s3) = false
    /\ length (available_updates (self s3)) = 1%nat.
Proof.
  destruct (text_failure_returns_zero (loads_from [(data_text, data_document)])
              gives_up_half_way ticks
              after_a_check
              (snd (begin_check gives_up_half_way None None after_a_check))
              (snd (_check_updates_json (loads_from [(data_text, data_document)])
                      gives_up_half_way ticks base_command None None
                      (snd (begin_check gives_up_half_way None None after_a_check))))
              false None None None None
              {| returncode := 1; stdout := ""; stderr := "" |})
    as (s3 & Hc & Ht & Hn & Hg & _ & _ & Hl).
  - reflexivity.
  - vm_compute. reflexivity.
  - vm_compute. reflexivity.
  - reflexivity.
  - discriminate.
  - exists s3. split; [exact Hc|]. split; [exact Ht|]. split; [exact Hn|].
    split; [exact Hg|]. rewrite Hl. vm_compute. reflexivity.
Defined.

(** The counterexample to C3 as stated: a checker that holds one update
    from an earlier check, on a machine where every command fails, holds
    none after the call. *)
Lemma prior_result_not_kept :
  ~ prior_result_kept_on_text_failure (loads_from []) winget_fails ticks.
Proof.
  intros H.
  destruct (H after_a_check
              (snd (begin_check winget_fails None None after_a_check))
              (snd (_check_updates_json (loads_from []) winget_fails ticks base_command
                      None None
                      (snd (begin_check winget_fails None None after_a_check))))
              false None None None None
              {| returncode := 1; stdout := ""; stderr := "" |})
    as (s3 & Hc & Ha & _).
  - reflexivity.
  - vm_compute. reflexivity.
  - vm_compute. reflexivity.
  - reflexivity.
  - discriminate.
  - assert (E : check_updates (loads_from []) winget_fails ticks false None None
                  after_a_check
                = (Ok 0, snd (check_updates (loads_from []) winget_fails ticks
                                false None None after_a_check)))
      by (vm_compute; reflexivity).
    rewrite E in Hc. injection Hc as <-. vm_compute in Ha. discriminate.
Qed.

(** The limit of [int] is 4300 digits: a run of 4300 digits is converted
    and the pair is comparable, a run of 4301 is refused. *)
Example longest_converted_run :
  _is_valid_version_comparison (PStr (Text.text (replicate 4300 "1"%char))) (PStr "2")
  = Ok true
  /\ _is_valid_version_comparison (PStr long_version) (PStr "2") = Ok false.
Proof. split; vm_compute; reflexivity. Qed.

(** The counterexample to C5 as stated: a version of 4301 digits is not
    empty, is not "unknown" and contains a decimal digit, and the check
    answers false on it: [int] refuses a run of more than 4300 digits and
    the [except] clause of the check passes to [return False]. *)
Lemma long_digit_run_is_refused : ~ comparability_as_specified.
Proof.
  intros H. destruct (H long_version "2") as (b & Hb & Hiff).
  assert (E : _is_valid_version_comparison (PStr long_version) (PStr "2") = Ok false)
    by (vm_compute; reflexivity).
  rewrite E in Hb. injection Hb as <-.
  assert (C : comparable long_version "2").
  { unfold comparable, is_unknown_word. repeat split.
    - intros N. apply (f_equal String.length) in N. vm_compute in N. discriminate.
    - discriminate.
    - intros N. apply (f_equal String.length) in N. vm_compute in N. discriminate.
    - intros N. vm_compute in N. discriminate.
    - exists "1"%char. split; [|reflexivity]. unfold long_version.
      rewrite chars_text. change 4301%nat with (S 4300). left.
    - exists "2"%char. split; [|reflexivity]. left. }
  apply Hiff in C. discriminate.
Qed.

Lemma one_reply_unless_unparsed_witness :
  connected open_pipe = true
  /\ serve_request decode_ascii (reads_from documents) describe_exn describe_value
       "now" ping_server (list_byte_of_string ping_text) open_pipe
     = (Continue,
        {| connected := true;
           written := [{| command := PStr "response"; data := PStr "pong";
                          timestamp := PStr "now" |}] |}).
Proof.
  split; [reflexivity|].
  pose proof (one_reply_unless_unparsed decode_ascii (reads_from documents) describe_exn
                describe_value "now" ping_server (list_byte_of_string ping_text)
                open_pipe eq_refl) as H.
  cbv zeta in H.
  change (decode_ascii (list_byte_of_string ping_text)) with (Some ping_text) in H.
  cbv iota beta in H.
  replace (from_json (reads_from documents) ping_text)
    with (Ok (Some {| command := PStr "ping"; data := PDict [];
                      timestamp := PStr "t" |})) in H
    by (vm_compute; reflexivity).
  destruct H as (reply & Hw & Hh & _).
  assert (Hr : reply = new_message "now" "response" (PStr "pong")).
  { apply (Hh "ping" (fun _ => Ok (PStr "pong"))); [reflexivity|].
    vm_compute. reflexivity. }
  rewrite Hw, Hr. reflexivity.
Defined.

(** The counterexample to C9 as stated: the request [{}] is JSON without
    a [command] key; [from_json] answers [None], the loop goes on, and
    nothing is written back. *)
Lemma request_without_reply :
  ~ every_request_gets_one_reply decode_ascii (reads_from documents) describe_exn
      describe_value "now".
Proof.
  intros H.
  destruct (H ping_server (list_byte_of_string "{}") open_pipe eq_refl) as [reply Hr].
  vm_compute in Hr. discriminate.
Qed.

(** * Further properties *)

(** ** The free-text parser as a whole *)

Lemma process_line_same_pins (x y : Checker) (ip iu : option bool) (line : string) :
  pinned_packages x = pinned_packages y ->
  process_line x ip iu line = process_line y ip iu line.
Proof.
  intros H. unfold process_line, parse_line, pinned_and_excluded, _is_package_pinned.
  by rewrite H.
Qed.

Lemma omap_pointwise {A B : Type} (f g : A -> option B) (l : list A) :
  (forall a, f a = g a) -> omap f l = omap g l.
Proof. intros H. induction l as [|a t IH]; cbn; [done|]. by rewrite H, IH. Qed.

Lemma process_section_spec (lines : list string) (ip iu : option bool) (x : Checker) :
  _process_output_section lines ip iu x
  = set_available_updates
      (available_updates x ++ omap (process_line x ip iu) lines) x.
Proof.
  revert x. induction lines as [|line rest IH]; intros x.
  - cbn. rewrite app_nil_r. by destruct x.
  - cbn [_process_output_section omap]. rewrite IH.
    destruct (process_line x ip iu line) as [u|] eqn:E.
    + rewrite (omap_pointwise (process_line (append_update u x) ip iu)
                 (process_line x ip iu) rest);
        [|intros; by apply process_line_same_pins].
      cbn. unfold set_available_updates. cbn. rewrite E. by rewrite <- app_assoc.
    + cbn. by rewrite E.
Qed.

Lemma close_section_concat (sections : list (list string)) (cur : list string) :
  concat (close_section sections cur) = (concat sections ++ cur)%list.
Proof.
  destruct cur; cbn; [by rewrite app_nil_r|].
  rewrite concat_app. cbn. by rewrite app_nil_r.
Qed.

Lemma split_loop_concat (markers lines : list string) (sections : list (list string))
    (cur : list string) (b : bool) :
  concat (split_loop markers lines sections cur b)
  = (concat sections ++ cur ++ lines)%list.
Proof.
  revert sections cur b. induction lines as [|line rest IH]; intros sections cur b;
    cbn [split_loop].
  - rewrite close_section_concat. by rewrite app_nil_r.
  - destruct (existsb _ markers).
    + rewrite IH, close_section_concat. by rewrite <- app_assoc.
    + destruct (b && _is_header_line line).
      * rewrite IH, close_section_concat. by rewrite <- app_assoc.
      * rewrite IH. by rewrite <- app_assoc.
Qed.

Lemma process_sections_spec (sections : list (list string)) (ip iu : option bool)
    (x : Checker) :
  fold_left (fun self section_lines =>
               match section_lines with
               | [] => self
               | _ => _process_output_section section_lines ip iu self
               end) sections x
  = set_available_updates
      (available_updates x ++ omap (process_line x ip iu) (concat sections)) x.
Proof.
  revert x. induction sections as [|sec rest IH]; intros x.
  - cbn. rewrite app_nil_r. by destruct x.
  - cbn [fold_left concat]. rewrite IH. rewrite omap_app.
    assert (E : match sec with
                | [] => x
                | _ => _process_output_section sec ip iu x
                end = _process_output_section sec ip iu x) by (by destruct sec).
    rewrite E, process_section_spec. cbn.
    rewrite (omap_pointwise
               (process_line
                  (set_available_updates
                     (available_updates x ++ omap (process_line x ip iu) sec) x)
                  ip iu)
               (process_line x ip iu) (concat rest));
      [|intros; by apply process_line_same_pins].
    unfold set_available_updates. cbn. by rewrite <- app_assoc.
Qed.

Lemma parse_output_spec (output : string) (ip iu : option bool) (x : Checker) :
  _parse_winget_output output ip iu x
  = let l := if existsb says_no_updates (output_lines output) then []
             else omap (process_line x ip iu) (output_lines output) in
    set_update_count (Z.of_nat (length l)) (set_available_updates l x).
Proof.
  unfold _parse_winget_output, output_lines.
  destruct (existsb says_no_updates _); [reflexivity|].
  rewrite process_sections_spec. unfold _split_output_into_sections.
  rewrite split_loop_concat. cbn. reflexivity.
Qed.

(** X1: the division into sections has no effect on the result. When no
    line announces that there are no updates, the result list is the
    records of the lines of the output, in their order, and the count is
    its length; the parser changes nothing else of the checker. *)
Theorem text_result_is_the_lines_in_order (output : string) (ip iu : option bool)
    (x : Checker) :
  existsb says_no_updates (output_lines output) = false ->
  _parse_winget_output output ip iu x
  = set_update_count
      (Z.of_nat (length (omap (process_line x ip iu) (output_lines output))))
      (set_available_updates (omap (process_line x ip iu) (output_lines output)) x).
Proof. intros H. rewrite parse_output_spec, H. reflexivity. Qed.

(** X2: a line that contains "No updates found." or "No available
    upgrades.", wherever it stands, empties the result: the list is empty
    and the count 0 whatever the other lines list. *)
Theorem no_updates_phrase_empties_result (output line : string) (ip iu : option bool)
    (x : Checker) :
  line ∈ output_lines output ->
  says_no_updates line = true ->
  _parse_winget_output output ip iu x = set_update_count 0 (set_available_updates [] x).
Proof.
  intros Hin Hs. rewrite parse_output_spec.
  assert (E : existsb says_no_updates (output_lines output) = true).
  { apply existsb_exists. exists line. split; [by apply list_elem_of_In | exact Hs]. }
  rewrite E. reflexivity.
Qed.

(** ** The two filter flags *)

Lemma unknown_text_cases (v : string) :
  is_unknown_text v = true -> v = "" \/ is_unknown_word v.
Proof.
  unfold is_unknown_text. intros H. apply orb_prop in H as [H|H].
  - right. by apply eqb_spec.
  - left. by apply is_empty_spec.
Qed.

Lemma parse_line_any_unknown_flag (x : Checker) (ip iu iu' : option bool) (line : string) :
  parse_line x ip iu line = parse_line x ip iu' line.
Proof.
  unfold parse_line.
  destruct (columns line) as [|name0 [|id_str [|version0 [|available0 rest]]]];
    try reflexivity.
  destruct (is_unknown_text (clean_version version0)) eqn:U; [|reflexivity].
  rewrite (valid_unknown_false _ (PStr (clean_version available0))
             (unknown_text_cases _ U)).
  cbn [and_then negb andb]. by destruct (negb (flag_on iu)), (negb (flag_on iu')).
Qed.

Lemma valid_unknown_json_false (cv av : pyval) :
  is_unknown_json cv = true -> _is_valid_version_comparison cv av = Ok false.
Proof.
  unfold is_unknown_json. intros H. apply orb_prop in H as [H|H].
  - assert (E : cv = PStr "Unknown").
    { destruct cv; cbn in H; try discriminate. apply eqb_spec in H. by subst. }
    subst cv. apply valid_unknown_false. by right.
  - unfold _is_valid_version_comparison. by rewrite H.
Qed.

Lemma data_entry_any_unknown_flag (x : Checker) (ip iu iu' : option bool) (item : pyval) :
  data_entry x ip iu item = data_entry x ip iu' item.
Proof.
  unfold data_entry.
  destruct (all_in _ item) as [[|]|]; cbn [and_then negb]; try reflexivity.
  destruct (Py.getitem item "Version") as [cv|]; cbn [and_then]; [|reflexivity].
  destruct (Py.getitem item "AvailableVersion") as [av|]; cbn [and_then]; [|reflexivity].
  destruct (is_unknown_json cv) eqn:U; [|reflexivity].
  rewrite (valid_unknown_json_false cv av U). cbn [and_then negb andb].
  by destruct (negb (flag_on iu)), (negb (flag_on iu')).
Qed.

Lemma sources_entry_any_unknown_flag (x : Checker) (ip iu iu' : option bool)
    (pkg_id pkg_info : pyval) :
  sources_entry x ip iu pkg_id pkg_info = sources_entry x ip iu' pkg_id pkg_info.
Proof.
  unfold sources_entry.
  destruct (Py.contains "Version" pkg_info) as [hv|]; cbn [and_then]; [|reflexivity].
  match goal with |- and_then ?m _ = _ =>
    destruct m as [[|]|]; cbn [and_then negb]; try reflexivity end.
  destruct (Py.get pkg_info "Version" _) as [cv|]; cbn [and_then]; [|reflexivity].
  destruct (Py.get pkg_info "AvailableVersion" _) as [av|]; cbn [and_then]; [|reflexivity].
  destruct (is_unknown_json cv) eqn:U; [|reflexivity].
  rewrite (valid_unknown_json_false cv av U). cbn [and_then negb andb].
  by destruct (negb (flag_on iu)), (negb (flag_on iu')).
Qed.

Lemma bind_pointwise {A B : Type} (m : M A) (f g : A -> M B) (s : Sys) :
  (forall a t, f a t = g a t) -> bind m f s = bind m g s.
Proof. intros H. rewrite !bind_eq. destruct (m s) as [[a|e] t]; [apply H | reflexivity]. Qed.

Lemma for_each_pointwise {A : Type} (l : list A) (f g : A -> M unit) (s : Sys) :
  (forall a t, f a t = g a t) -> for_each l f s = for_each l g s.
Proof.
  intros H. revert s. induction l as [|a rest IH]; intros s; [reflexivity|].
  cbn [for_each]. rewrite !bind_eq, H. destruct (g a s) as [[[]|e] t]; [apply IH | reflexivity].
Qed.

Lemma append_entry_pointwise (e1 e2 : Checker -> result (option UpdateRecord)) (s : Sys) :
  (forall x, e1 x = e2 x) -> append_entry e1 s = append_entry e2 s.
Proof. intros H. unfold append_entry. rewrite !bind_eq. cbn. by rewrite H. Qed.

Lemma extract_updates_any_unknown_flag (ip iu iu' : option bool) (data : pyval) (s : Sys) :
  extract_updates ip iu data s = extract_updates ip iu' data s.
Proof.
  unfold extract_updates. apply bind_pointwise. intros has_sources t.
  destruct has_sources.
  - unfold sources_branch. apply bind_pointwise. intros sources t1.
    apply bind_pointwise. intros packages t2. apply bind_pointwise. intros items t3.
    apply for_each_pointwise. intros kv t4. apply append_entry_pointwise.
    intros x. apply sources_entry_any_unknown_flag.
  - apply bind_pointwise. intros has_data t1. destruct has_data; [|reflexivity].
    unfold data_branch. apply bind_pointwise. intros items t2.
    apply for_each_pointwise. intros item t3. apply append_entry_pointwise.
    intros x. apply data_entry_any_unknown_flag.
Qed.

Lemma parse_json_any_unknown_flag (json_loads : string -> option pyval)
    (datetime_now : list event -> Z) (output : string) (ip iu iu' : option bool) (s : Sys) :
  _parse_winget_json json_loads datetime_now output ip iu s
  = _parse_winget_json json_loads datetime_now output ip iu' s.
Proof.
  unfold _parse_winget_json, try_except.
  match goal with |- (let (_, _) := ?a in _) = (let (_, _) := ?b in _) =>
    assert (E : a = b) end.
  { apply bind_pointwise. intros _ t. apply bind_pointwise. intros data t1.
    rewrite !bind_eq. by rewrite (extract_updates_any_unknown_flag ip iu iu'). }
  by rewrite E.
Qed.

(** X3: [include_unknown] has no effect on what is parsed. A record whose
    current version is unknown is dropped by the comparability check when
    the flag lets it through, so both parsers give the same state for
    every value of the flag. *)
Theorem include_unknown_changes_nothing :
  (forall (output : string) (ip iu iu' : option bool) (x : Checker),
     _parse_winget_output output ip iu x = _parse_winget_output output ip iu' x)
  /\
  (forall (json_loads : string -> option pyval) (datetime_now : list event -> Z)
          (output : string) (ip iu iu' : option bool) (s : Sys),
     _parse_winget_json json_loads datetime_now output ip iu s
     = _parse_winget_json json_loads datetime_now output ip iu' s).
Proof.
  split.
  - intros output ip iu iu' x. rewrite !parse_output_spec.
    rewrite (omap_pointwise (process_line x ip iu) (process_line x ip iu')); [reflexivity|].
    intros line. unfold process_line. by rewrite (parse_line_any_unknown_flag x ip iu iu').
  - intros. apply parse_json_any_unknown_flag.
Qed.

Lemma omap_filter {A B : Type} (f g : A -> option B) (keep : B -> bool) (l : list A) :
  (forall a, f a = match g a with
                   | Some b => if keep b then Some b else None
                   | None => None
                   end) ->
  omap f l = List.filter keep (omap g l).
Proof.
  intros H. induction l as [|a t IH]; [reflexivity|]. cbn. rewrite H.
  destruct (g a) as [b|]; [|exact IH]. cbn. destruct (keep b); by rewrite IH.
Qed.

Lemma process_line_without_pinned (x : Checker) (ip iu : option bool) (line : string) :
  flag_on ip = false ->
  process_line x ip iu line
  = match process_line x (Some true) iu line with
    | Some u => if negb (is_pinned_record (pinned_packages x) u) then Some u else None
    | None => None
    end.
Proof.
  intros F. unfold process_line. destruct (_should_skip_line line); [reflexivity|].
  unfold parse_line.
  destruct (columns line) as [|name0 [|id_str [|version0 [|available0 rest]]]];
    try reflexivity.
  destruct (is_unknown_text _ && _); [reflexivity|].
  destruct (_is_valid_version_comparison _ _) as [[|]|]; cbn [and_then negb];
    try reflexivity.
  unfold pinned_and_excluded, _is_package_pinned. rewrite F. cbn [flag_on Py.in_set and_then].
  destruct (bool_decide (id_str ∈ pinned_packages x)) eqn:P.
  - match goal with |- context [if ?b then Ok (Some _) else _] => destruct b end;
      [|reflexivity].
    unfold is_pinned_record. cbn [id]. by rewrite P.
  - match goal with |- context [if ?b then Ok (Some _) else _] => destruct b end;
      [|reflexivity].
    unfold is_pinned_record. cbn [id]. by rewrite P.
Qed.

(** X4: [include_pinned] only filters. The result of the free-text parser
    without the flag is the result with the flag, less the records whose
    id is in the pin set, in the same order. *)
Theorem include_pinned_only_filters (output : string) (ip iu : option bool) (x : Checker) :
  flag_on ip = false ->
  available_updates (_parse_winget_output output ip iu x)
  = List.filter (fun u => negb (is_pinned_record (pinned_packages x) u))
      (available_updates (_parse_winget_output output (Some true) iu x)).
Proof.
  intros F. rewrite !parse_output_spec.
  destruct (existsb says_no_updates (output_lines output)); [reflexivity|].
  cbn. apply omap_filter. intros line. by apply process_line_without_pinned.
Qed.

(** X5: every record of the free-text parser has a name and an id that
    are strings and not empty, and the source "winget". *)
Theorem text_records_are_named (output : string) (ip iu : option bool) (x : Checker) :
  Forall (fun u => exists n i, name u = PStr n /\ n <> "" /\ id u = PStr i /\ i <> ""
                               /\ source u = Some "winget")
         (available_updates (_parse_winget_output output ip iu x)).
Proof.
  rewrite parse_output_spec.
  destruct (existsb says_no_updates (output_lines output)); [constructor|].
  cbn. apply Forall_forall. intros u Hu.
  apply list_elem_of_omap in Hu as (line & _ & Hl).
  unfold process_line in Hl. destruct (_should_skip_line line); [discriminate|].
  unfold parse_line in Hl.
  destruct (columns line) as [|name0 [|id_str [|version0 [|available0 rest]]]];
    try discriminate.
  destruct (is_unknown_text _ && _); [discriminate|].
  destruct (_is_valid_version_comparison _ _) as [[|]|]; cbn [and_then negb] in Hl;
    try discriminate.
  destruct (pinned_and_excluded _ _ _) as [[|]|]; cbn [and_then] in Hl; try discriminate.
  match type of Hl with context [if ?b then Ok (Some _) else _] => destruct b eqn:B end;
    [|discriminate].
  injection Hl as <-. cbn [name id source].
  apply andb_prop in B as [B _]. apply andb_prop in B as [B _].
  apply andb_prop in B as [B _]. apply andb_prop in B as [B1 B2].
  exists (clean_name name0), id_str.
  split; [reflexivity|]. split.
  { intros E. rewrite E in B1. discriminate. }
  split; [reflexivity|]. split; [|reflexivity].
  intros E. rewrite E in B2. discriminate.
Qed.

(** ** What a check leaves behind *)

Section EngineMore.

Variable json_loads : string -> option pyval.
Variable subprocess_run : list event -> list string -> run_outcome.
Variable datetime_now : list event -> Z.
Variable subprocess_exec : list event -> list string -> exec_outcome.
Variable isoformat : Z -> string.

Lemma finish_parse_count (s : Sys) :
  exists s', finish_parse datetime_now s
             = (Ok (Some (Z.of_nat (length (available_updates (self s))))), s')
             /\ count_is_length (self s')
             /\ available_updates (self s') = available_updates (self s).
Proof.
  unfold finish_parse, set_last_check_if_configured, bind, modify, get_self, now, ret,
    count_is_length.
  cbn. destruct (config_manager (self s)); eexists; (split; [reflexivity|]); by split.
Qed.

Lemma parse_json_outcome (output : string) (ip iu : option bool) (s : Sys) :
  exists r s', _parse_winget_json json_loads datetime_now output ip iu s = (Ok r, s')
               /\ (forall n, r = Some n -> update_count (self s') = n
                                            /\ count_is_length (self s')).
Proof.
  unfold _parse_winget_json, try_except. rewrite bind_eq, modify_eq, bind_eq, lift_eq.
  destruct (json_loads output) as [data|].
  2:{ eexists _, _. split; [reflexivity | discriminate]. }
  rewrite bind_eq.
  match goal with |- context [extract_updates ip iu data ?t] =>
    destruct (extract_updates ip iu data t) as [[[]|e] t1] end.
  - destruct (finish_parse_count t1) as (t2 & -> & Hc & Hl).
    eexists _, _. split; [reflexivity|]. intros n [= <-]. split; [|exact Hc].
    unfold count_is_length in Hc. by rewrite Hc, Hl.
  - eexists _, _. split; [reflexivity | discriminate].
Qed.

Lemma try_commands_outcome (commands : list (list string)) (ip iu : option bool) (s : Sys) :
  exists r s', try_commands json_loads subprocess_run datetime_now commands ip iu s
               = (Ok r, s')
               /\ (forall n, r = Some n -> update_count (self s') = n
                                            /\ count_is_length (self s')).
Proof.
  revert s. induction commands as [|cmd rest IH]; intros s; cbn [try_commands].
  - eexists _, _. split; [reflexivity | discriminate].
  - rewrite bind_eq. unfold try_except. rewrite bind_eq, run_eq.
    set (t := {| self := self s; past := Spawned cmd :: past s |}).
    destruct (subprocess_run (past s) cmd) as [p|e].
    2:{ cbn [ret]. apply (IH t). }
    destruct (returncode p =? 0).
    2:{ cbn [ret]. apply (IH t). }
    rewrite bind_eq.
    destruct (parse_json_outcome (stdout p) ip iu t) as (r & t1 & -> & Hr).
    cbn [ret]. eexists _, _. split; [reflexivity | exact Hr].
Qed.

Lemma text_fallback_outcome (ip iu : option bool) (s : Sys) :
  update_count (self s) = 0 ->
  match text_fallback subprocess_run datetime_now ip iu s with
  | (Ok n, s') => update_count (self s') = n /\ (n = 0 \/ count_is_length (self s'))
  | (Raise _, s') => update_count (self s') = 0
  end.
Proof.
  intros H0. unfold text_fallback. rewrite bind_eq, run_eq.
  destruct (subprocess_run (past s) base_command) as [p|e]; [|exact H0].
  destruct (negb (returncode p =? 0)).
  - rewrite bind_eq, modify_eq. cbn. split; [exact H0 | by left].
  - rewrite bind_eq, modify_eq. cbn [self past]. rewrite parse_output_spec.
    unfold set_last_check_if_configured, bind, modify, get_self, now, ret, count_is_length.
    cbn. destruct (config_manager (self s)); cbn; split; try reflexivity; by right.
Qed.

(** X6: the number [check_updates] returns is the count it leaves in the
    checker. When the call ran a check, it also leaves the guard cleared,
    and the count is the length of the result list unless the count is 0. *)
Theorem check_updates_returns_its_count (force : bool) (ip iu : option bool)
    (s s' : Sys) (n : Z) :
  check_updates json_loads subprocess_run datetime_now force ip iu s = (Ok n, s') ->
  update_count (self s') = n
  /\ (is_checking (self s) && negb force = false ->
      is_checking (self s') = false /\ (n = 0 \/ count_is_length (self s'))).
Proof.
  unfold check_updates. rewrite bind_eq. unfold get_self at 1.
  destruct (is_checking (self s) && negb force) eqn:G.
  { intros [= <- <-]. split; [reflexivity | discriminate]. }
  rewrite bind_eq.
  destruct (begin_check subprocess_run ip iu s) as [[flags|e] s1] eqn:B; [|discriminate].
  destruct (begin_check_result subprocess_run ip iu s s1 flags B) as [_ N1].
  unfold try_finally, try_except, check_attempt. rewrite bind_eq.
  unfold _check_updates_json, try_except.
  destruct (try_commands_outcome (json_commands base_command) (fst flags) (snd flags) s1)
    as (r & s2 & Hj & Hsome).
  destruct (try_commands_result json_loads subprocess_run datetime_now
              (json_commands base_command) (fst flags) (snd flags) s1)
    as (r' & s2' & Hj' & Hnone).
  rewrite Hj in Hj'. injection Hj' as <- <-. rewrite Hj.
  destruct r as [m|].
  - cbn [ret]. intros [= <- <-]. destruct (Hsome m eq_refl) as [Hc Hl].
    cbn. split; [exact Hc|]. intros _. split; [reflexivity | by right].
  - destruct (Hnone eq_refl) as [_ N2]. rewrite N1 in N2.
    pose proof (text_fallback_outcome (fst flags) (snd flags) s2 N2) as T.
    destruct (text_fallback subprocess_run datetime_now (fst flags) (snd flags) s2)
      as [[m|e] s3].
    + intros [= <- <-]. destruct T as [Hc Hl]. cbn. split; [exact Hc|].
      intros _. split; [reflexivity | exact Hl].
    + cbn [ret]. intros [= <- <-]. cbn. split; [exact T|].
      intros _. split; [reflexivity | by left].
Qed.

(** *** When a check can raise *)

Lemma from_config_given (getter : ConfigManager -> result bool * ConfigManager)
    (b : bool) (s : Sys) :
  from_config getter (Some b) s = (Ok (Some b), s).
Proof. unfold from_config. by destruct (config_manager (self s)). Qed.


Lemma from_config_frame (getter : ConfigManager -> result bool * ConfigManager)
    (include : option bool) (s : Sys) :
  let s' := snd (from_config getter include s) in
  past s' = past s
  /\ available_updates (self s') = available_updates (self s)
  /\ update_count (self s') = update_count (self s).
Proof.
  unfold from_config. destruct (config_manager (self s)) as [c|]; [|by cbn].
  destruct include; [by cbn|]. by destruct (getter c).
Qed.

Lemma pinned_flag_resolves (ip iu : option bool) (s : Sys) :
  settings_readable ip iu (self s) ->
  exists f1 t1,
    from_config get_include_pinned_updates ip s = (Ok f1, t1)
    /\ settings_readable (Some true) iu (self t1).
Proof.
  intros R. unfold from_config. destruct (config_manager (self s)) as [c|] eqn:C.
  - destruct (R c C) as [Rp Ru]. destruct ip as [b|].
    + eexists _, _. split; [reflexivity|]. intros c' Hc'.
      rewrite C in Hc'. injection Hc' as <-. by split.
    + unfold get_include_pinned_updates, getboolean.
      destruct (include_pinned_updates c) eqn:P; [| |by destruct (Rp eq_refl)];
        (eexists _, _; split; [reflexivity|]; intros c' [= <-]; by split).
  - eexists _, _. split; [reflexivity|]. intros c' Hc'. congruence.
Qed.

Lemma unknown_flag_resolves (iu : option bool) (t1 : Sys) :
  settings_readable (Some true) iu (self t1) ->
  exists f2 t2, from_config get_include_unknown_versions iu t1 = (Ok f2, t2).
Proof.
  intros H. unfold from_config. destruct (config_manager (self t1)) as [c|] eqn:C;
    [|by eexists _, _].
  destruct iu as [u|]; [by eexists _, _|].
  destruct (H c C) as [_ Ru]. specialize (Ru eq_refl).
  unfold get_include_unknown_versions, getboolean.
  destruct (include_unknown_versions c) eqn:U; [| |by destruct Ru];
    eexists _, _; reflexivity.
Qed.

Lemma begin_check_returns (ip iu : option bool) (s : Sys) :
  settings_readable ip iu (self s) ->
  exists flags s1, begin_check subprocess_run ip iu s = (Ok flags, s1).
Proof.
  intros R. unfold begin_check. rewrite bind_eq.
  destruct (pinned_flag_resolves ip iu s R) as (f1 & t1 & -> & H1).
  rewrite bind_eq. destruct (unknown_flag_resolves iu t1 H1) as (f2 & t2 & ->).
  rewrite bind_eq, modify_eq, bind_eq, modify_eq, bind_eq, modify_eq, bind_eq.
  match goal with |- context [_refresh_pinned_packages subprocess_run ?t] =>
    pose proof (refresh_returns subprocess_run t) as Rf;
    destruct (_refresh_pinned_packages subprocess_run t) as [r t3] end.
  cbn in Rf. subst r. by eexists _, _.
Qed.

Lemma check_returns_when_readable (force : bool) (ip iu : option bool) (s : Sys) :
  settings_readable ip iu (self s) ->
  exists n s', check_updates json_loads subprocess_run datetime_now force ip iu s
               = (Ok n, s').
Proof.
  intros R. unfold check_updates. rewrite bind_eq. unfold get_self at 1.
  destruct (is_checking (self s) && negb force); [by eexists _, _|].
  rewrite bind_eq. destruct (begin_check_returns ip iu s R) as (flags & s1 & ->).
  unfold try_finally, try_except.
  destruct (check_attempt json_loads subprocess_run datetime_now (fst flags) (snd flags) s1)
    as [[n|e] s2]; by eexists _, _.
Qed.

(** X7: no failure of [winget] or of a parser leaves [check_updates]: the
    call returns a number whenever the settings it has to read can be read
    (always, when both flags are given or there is no configuration
    manager). *)
Theorem check_updates_returns_unless_settings_fail (force : bool) (ip iu : option bool)
    (s : Sys) :
  settings_readable ip iu (self s) ->
  exists n s', check_updates json_loads subprocess_run datetime_now force ip iu s
               = (Ok n, s').
Proof. apply check_returns_when_readable. Qed.

(** *** The accessors *)



(** *** The pin registry *)

(** X9: [_refresh_pinned_packages] never raises and starts exactly one
    process, [winget pin list]. The set it leaves holds only ids read from
    that listing, nothing of the set held before; when the command cannot
    be started or exits with a code other than 0 the set is empty. *)
Theorem pin_refresh_replaces_the_set (s : Sys) :
  _refresh_pinned_packages subprocess_run s
  = (Ok tt,
     {| self := set_pinned_packages
                  (match subprocess_run (past s) ["winget"; "pin"; "list"] with
                   | Completed p =>
                       if returncode p =? 0
                       then list_to_set (pinned_ids (stdout p))
                       else ∅
                   | RunRaised _ => ∅
                   end) (self s);
        past := Spawned ["winget"; "pin"; "list"] :: past s |}).
Proof.
  unfold _refresh_pinned_packages. rewrite bind_eq, modify_eq.
  unfold try_except. rewrite bind_eq, run_eq. cbn [self past].
  destruct (subprocess_run (past s) ["winget"; "pin"; "list"]) as [p|e]; [|reflexivity].
  destruct (returncode p =? 0); [|reflexivity].
  rewrite modify_eq. cbn. by rewrite (left_id_L ∅ (∪)).
Qed.

(** *** Installation *)

(** X10: [install_all_updates] never raises: whatever [winget] does and
    whatever the settings hold, the call returns a boolean. *)
Theorem install_never_raises (s : Sys) :
  exists b s', install_all_updates json_loads subprocess_run datetime_now s = (Ok b, s').
Proof.
  unfold install_all_updates. rewrite bind_eq.
  destruct (check_returns_when_readable true (Some true) (Some true) s) as (n & s1 & ->).
  { intros c _. by split. }
  rewrite bind_eq. unfold get_self at 1. cbv beta iota.
  destruct (available_updates (self s1)) as [|u l]; [by eexists _, _|].
  unfold install_and_verify, try_except.
  match goal with |- context [match ?m s1 with _ => _ end] =>
    destruct (m s1) as [[b|e] s2] end; by eexists _, _.
Qed.

(** *** The asynchronous check *)

Lemma guard_cleared_again (b : bool) (x : Checker) :
  is_checking x = false -> set_is_checking false (set_is_checking b x) = x.
Proof. destruct x. cbn. by intros ->. Qed.

(** X11: when [winget update] cannot be started, or exits with a code other
    than 0, [check_updates_async] returns 0 and leaves the checker exactly
    as it was: the result list, the count and the time of the last check
    are those held before. *)
Theorem async_failure_leaves_the_checker (s : Sys) :
  is_checking (self s) = false ->
  match subprocess_exec (past s) ["winget"; "update"] with
  | Exited code _ _ => code <> 0
  | ExecRaised _ => True
  end ->
  check_updates_async datetime_now subprocess_exec s
  = (Ok 0, {| self := self s; past := Spawned ["winget"; "update"] :: past s |}).
Proof.
  intros G F. unfold check_updates_async. rewrite bind_eq. unfold get_self at 1.
  cbv beta iota. rewrite G, bind_eq, modify_eq.
  unfold try_finally, try_except. rewrite bind_eq. unfold communicate. cbn [self past].
  destruct (subprocess_exec (past s) ["winget"; "update"]) as [code out err|e].
  - destruct (code =? 0) eqn:E; [apply Z.eqb_eq in E; contradiction|].
    cbn [negb]. rewrite bind_eq, lift_eq.
    destruct err as [t|]; cbn; revert G; destruct (self s); cbn; by intros ->.
  - cbn. by rewrite guard_cleared_again.
Qed.

(** X20: [check_updates_async] never raises. When it ran a check it
    leaves the guard cleared, and the number it returns is 0 or the count
    it leaves, which is then the length of the result list. *)
Theorem async_check_always_returns (s : Sys) :
  exists n s',
    check_updates_async datetime_now subprocess_exec s = (Ok n, s')
    /\ (is_checking (self s) = false ->
        is_checking (self s') = false
        /\ (n = 0 \/ (update_count (self s') = n /\ count_is_length (self s')))).
Proof.
  unfold check_updates_async. rewrite bind_eq. unfold get_self at 1. cbv beta iota.
  destruct (is_checking (self s)) eqn:G.
  { eexists _, _. split; [reflexivity | discriminate]. }
  rewrite bind_eq, modify_eq. unfold try_finally, try_except. rewrite bind_eq.
  unfold communicate. cbn [self past].
  destruct (subprocess_exec (past s) ["winget"; "update"]) as [code out err|e].
  2:{ eexists _, _. split; [reflexivity|]. intros _. split; [reflexivity | by left]. }
  destruct (code =? 0); cbn [negb].
  - rewrite bind_eq, lift_eq. destruct out as [output|]; cbn [decoded].
    2:{ eexists _, _. split; [reflexivity|]. intros _. split; [reflexivity | by left]. }
    rewrite bind_eq, modify_eq. cbn [self past]. rewrite parse_output_spec.
    unfold set_last_check_if_configured, bind, modify, get_self, now, ret, count_is_length.
    cbn. destruct (config_manager (self s)); cbn;
      (eexists _, _; split; [reflexivity|]; intros _; split; [reflexivity|]; by right).
  - rewrite bind_eq, lift_eq.
    destruct err as [t|]; cbn;
      (eexists _, _; split; [reflexivity|]; intros _; split; [reflexivity | by left]).
Qed.

(** *** The service's handler *)

(** X12: the service's [check_updates] handler never raises and always
    reports [success: True]; when the check itself raised, the count it
    reports is 0. *)
Theorem check_handler_always_reports_success (data : pyval) (s : Sys) :
  exists n t s',
    _handle_check_updates json_loads subprocess_run datetime_now isoformat data s
    = (Ok (PDict [("update_count", PInt n); ("success", PBool true);
                  ("last_check", PStr t)]), s')
    /\ (forall e s1, check_updates json_loads subprocess_run datetime_now
                       false None None s = (Raise e, s1) -> n = 0).
Proof.
  unfold _handle_check_updates, service_check_updates. rewrite bind_eq.
  unfold try_except.
  destruct (check_updates json_loads subprocess_run datetime_now false None None s)
    as [[n|e] s1].
  - rewrite bind_eq. unfold now at 1. cbv beta iota. unfold ret.
    eexists _, _, _. split; [reflexivity|]. discriminate.
  - unfold ret at 1. rewrite bind_eq. unfold now at 1. cbv beta iota. unfold ret.
    eexists _, _, _. split; [reflexivity|]. reflexivity.
Qed.

End EngineMore.

(** ** The pipe protocol *)

Section IPCMore.

Variable decode_utf8 : list Byte.byte -> option string.
Variable encode_utf8 : string -> list Byte.byte.
Variable json_loads : string -> loads_outcome.
Variable json_dumps : pyval -> string.
Variable str_of_exn : exn -> string.
Variable str_of_value : pyval -> string.

(** X13: registering a handler changes the answer to the one command it is
    registered under, and to no other: a message with that command is
    answered by the new handler (also when another one was registered
    before), every other message as before the registration. *)
Theorem registration_changes_one_command (isoformat_now : string) (c : string)
    (h : handler) (server : IPCServer) (m : IPCMessage) :
  (command m = PStr c ->
   _handle_command str_of_exn str_of_value isoformat_now (register_handler c h server) m
   = Ok (match h (data m) with
         | Ok r => new_message isoformat_now "response" r
         | Raise e => error_message isoformat_now (str_of_exn e)
         end))
  /\ (command m <> PStr c ->
      _handle_command str_of_exn str_of_value isoformat_now (register_handler c h server) m
      = _handle_command str_of_exn str_of_value isoformat_now server m).
Proof.
  unfold _handle_command, find_handler, register_handler. cbn [command_handlers].
  split.
  - intros ->. rewrite lookup_insert_eq. cbn [and_then]. by destruct (h (data m)).
  - intros N. destruct (command m) as [| | | |name| |]; try reflexivity.
    rewrite lookup_insert_ne; [reflexivity | congruence].
Qed.



(** X14: after [_register_command_handlers] on a new server, a handler is
    found under exactly the six names of the service. A message with any
    other command, such as the [install_updates] the tray application
    sends, is answered with the error envelope for an unknown command. *)
Theorem service_answers_six_commands (isoformat_now : string)
    (h1 h2 h3 h4 h5 h6 : handler) (c : string) :
  let server := _register_command_handlers h1 h2 h3 h4 h5 h6 new_server in
  (is_Some (command_handlers server !! c) <-> c ∈ service_commands)
  /\ (c ∉ service_commands ->
      forall m, command m = PStr c ->
                _handle_command str_of_exn str_of_value isoformat_now server m
                = Ok (error_message isoformat_now
                        ("Unknown command: " ++ str_of_value (PStr c)))).
Proof.
  clear decode_utf8 encode_utf8 json_loads json_dumps. intros server.
  assert (L : is_Some (command_handlers server !! c) <-> c ∈ service_commands).
  { unfold server, _register_command_handlers, register_handler, new_server,
      service_commands. cbn [command_handlers].
    rewrite !lookup_insert_is_Some', lookup_empty, !elem_of_cons, elem_of_nil.
    split.
    - intros [->|[->|[->|[->|[->|[->|H]]]]]]; [tauto..|]. by destruct H.
    - intros [->|[->|[->|[->|[->|[->|[]]]]]]]; tauto. }
  split; [exact L|].
  intros N m C. unfold _handle_command, find_handler. rewrite C.
  destruct (command_handlers server !! c) as [h|] eqn:E.
  - destruct N. apply L. by eexists.
  - reflexivity.
Qed.

(** *** What a connection writes *)

Lemma write_one_more (m : IPCMessage) (p : Pipe) :
  is_reply m -> one_more_at_most p (snd (WriteFile m p)).
Proof.
  intros R. unfold WriteFile. destruct (connected p); cbn [snd written].
  - exists [m]. split; [reflexivity|]. split; [cbn; lia | by constructor].
  - exists []. split; [by rewrite app_nil_r|]. split; [cbn; lia | constructor].
Qed.

Lemma write_none (p : Pipe) : one_more_at_most p p.
Proof.
  exists []. split; [by rewrite app_nil_r|]. split; [cbn; lia | constructor].
Qed.

Lemma error_is_reply (isoformat_now text : string) :
  is_reply (error_message isoformat_now text).
Proof. by right. Qed.

Lemma handle_command_reply (isoformat_now : string) (server : IPCServer)
    (m reply : IPCMessage) :
  _handle_command str_of_exn str_of_value isoformat_now server m = Ok reply ->
  is_reply reply.
Proof.
  unfold _handle_command.
  destruct (find_handler server (command m)) as [[h|]|e]; cbn [and_then]; [| |discriminate].
  - destruct (h (data m)); intros [= <-]; [by left | by right].
  - intros [= <-]. by right.
Qed.

Lemma after_exception_one_more (isoformat_now : string) (e : exn) (p : Pipe) :
  one_more_at_most p
    (snd (match e with
          | PipeError _ => (Break, p)
          | _ => (Break, snd (WriteFile (error_message isoformat_now (str_of_exn e)) p))
          end)).
Proof.
  destruct e; cbn [snd]; try apply write_one_more; try apply error_is_reply.
  apply write_none.
Qed.

Lemma serve_turn_one_more (isoformat_now : string) (server : IPCServer)
    (read : result (list Byte.byte)) (p : Pipe) :
  one_more_at_most p
    (snd (serve_turn decode_utf8 json_loads str_of_exn str_of_value isoformat_now
            server read p)).
Proof.
  unfold serve_turn. destruct read as [raw|e]; [|apply after_exception_one_more].
  unfold serve_request. destruct (decode_utf8 raw) as [txt|]; cbn [and_then].
  2:{ apply write_one_more, error_is_reply. }
  destruct (from_json json_loads txt) as [[m|]|e]; cbn [and_then].
  - destruct (_handle_command str_of_exn str_of_value isoformat_now server m)
      as [reply|e] eqn:H; cbn [and_then].
    + pose proof (write_one_more reply p (handle_command_reply _ _ _ _ H)) as W.
      by destruct (WriteFile reply p) as [[[]|e] p'].
    + apply after_exception_one_more.
  - apply write_none.
  - apply after_exception_one_more.
Qed.

(** X15: over a connection the server only appends to what it has written,
    at most one envelope for each request it reads, and every envelope it
    writes has the command [response] or [error]. *)
Theorem session_writes_one_reply_at_most (isoformat_now : string) (server : IPCServer)
    (reads : list (result (list Byte.byte))) (p : Pipe) :
  exists l,
    written (serve_session decode_utf8 json_loads str_of_exn str_of_value isoformat_now
               server reads p)
    = (written p ++ l)%list
    /\ (length l <= length reads)%nat
    /\ Forall is_reply l.
Proof.
  revert p. induction reads as [|read rest IH]; intros p; cbn [serve_session].
  { exists []. split; [by rewrite app_nil_r|]. split; [cbn; lia | constructor]. }
  destruct (serve_turn_one_more isoformat_now server read p) as (l1 & E1 & N1 & R1).
  destruct (serve_turn decode_utf8 json_loads str_of_exn str_of_value isoformat_now
              server read p) as [[] p']; cbn [snd] in E1.
  - destruct (IH p') as (l2 & E2 & N2 & R2).
    exists (l1 ++ l2)%list. rewrite E2, E1, app_assoc. split; [reflexivity|].
    split; [rewrite length_app; cbn; lia | by apply Forall_app].
  - exists l1. split; [exact E1|]. split; [cbn; lia | exact R1].
Qed.

(** *** Envelopes *)

Lemma read_envelope (txt : string) (m : IPCMessage) :
  data m <> PNone ->
  json_loads txt = Loaded (envelope m) ->
  from_json json_loads txt = Ok (Some m).
Proof.
  intros D L. unfold from_json. rewrite L.
  change (Py.getitem (envelope m) "command") with (Ok (command m)).
  change (Py.getitem (envelope m) "data") with (Ok (data m)).
  change (Py.getitem (envelope m) "timestamp") with (Ok (timestamp m)).
  cbn [and_then]. destruct m as [c d t]. cbn in *. by destruct d.
Qed.

(** X16: reading back what [to_json] wrote gives the message again, with
    its own timestamp and not the time of reading, for every message whose
    data is not [None], where [json.loads] reads the text of the envelope
    as the envelope. *)
Theorem envelope_round_trip (m : IPCMessage) :
  data m <> PNone ->
  json_loads (to_json json_dumps m) = Loaded (envelope m) ->
  from_json json_loads (to_json json_dumps m) = Ok (Some m).
Proof. apply read_envelope. Qed.

(** X17: the two ends of the pipe together. The request the client builds
    for a command, read by a server on which a handler is registered for
    it, makes the server write one envelope, the [response] with what the
    handler returned; and the client that reads this envelope returns it
    from [send_command] and keeps its pipe. *)
Theorem request_reaches_its_handler (t_client t_server : string) (server : IPCServer)
    (p : Pipe) (c : string) (d r : pyval) (h : handler)
    (exchange : list Byte.byte -> result (list Byte.byte)) (closes : bool) :
  let request := new_message t_client c d in
  let reply := new_message t_server "response" r in
  connected p = true ->
  command_handlers server !! c = Some h ->
  h (data request) = Ok r ->
  (forall m, m = request \/ m = reply ->
             decode_utf8 (encode_utf8 (to_json json_dumps m)) = Some (to_json json_dumps m)
             /\ json_loads (to_json json_dumps m) = Loaded (envelope m)) ->
  exchange (encode_utf8 (to_json json_dumps request))
  = Ok (encode_utf8 (to_json json_dumps reply)) ->
  serve_request decode_utf8 json_loads str_of_exn str_of_value t_server server
    (encode_utf8 (to_json json_dumps request)) p
  = (Continue, {| connected := true; written := written p ++ [reply] |})
  /\ send_command json_dumps encode_utf8 decode_utf8 json_loads t_client
       exchange closes c d
     = (Some reply, true).
Proof.
  intros request reply Hp Hh Hr Codec Hx.
  assert (Dq : data request <> PNone) by (unfold request; cbn; by destruct d).
  assert (Dr : data reply <> PNone) by (unfold reply; cbn; by destruct r).
  destruct (Codec request (or_introl eq_refl)) as [U1 J1].
  destruct (Codec reply (or_intror eq_refl)) as [U2 J2].
  split.
  - unfold serve_request. rewrite U1. cbn [and_then].
    rewrite (read_envelope _ request Dq J1). cbn [and_then].
    unfold _handle_command, find_handler. cbn [command request new_message].
    rewrite Hh. cbn [and_then]. rewrite Hr. cbn [and_then].
    unfold WriteFile. rewrite Hp. reflexivity.
  - unfold send_command, send_and_receive. fold request. rewrite Hx. cbn [and_then].
    rewrite U2. cbn [and_then]. by rewrite (read_envelope _ reply Dr J2).
Qed.

End IPCMore.

(** ** The structured parser *)

Section StructuredMore.

Variable json_loads : string -> option pyval.
Variable subprocess_run : list event -> list string -> run_outcome.
Variable datetime_now : list event -> Z.

(** X18: when the first structured command exits with 0 and prints a
    document with a [Sources] key, [_check_updates_json] gives [None] with
    an empty result list, whatever the document holds under the key, and
    it has started this one command only: the other variants of the
    command are not tried. *)
Theorem sources_key_never_gives_a_result (p : CompletedProcess) (data : pyval)
    (ip iu : option bool) (s : Sys) :
  subprocess_run (past s) (base_command ++ ["--format"; "json"])%list = Completed p ->
  returncode p = 0 ->
  json_loads (stdout p) = Some data ->
  Py.contains "Sources" data = Ok true ->
  _check_updates_json json_loads subprocess_run datetime_now base_command ip iu s
  = (Ok None,
     {| self := set_available_updates [] (self s);
        past := Spawned (base_command ++ ["--format"; "json"])%list :: past s |}).
Proof.
  intros Hrun Hrc Hl Hc. unfold _check_updates_json, try_except, json_commands.
  cbn [try_commands]. rewrite bind_eq. unfold try_except. rewrite bind_eq, run_eq, Hrun.
  rewrite (proj2 (Z.eqb_eq _ _) Hrc), bind_eq.
  by rewrite (sources_shape_fails json_loads datetime_now (stdout p) data ip iu _ Hl Hc).
Qed.

Lemma data_entry_same_pins (x x' : Checker) (ip iu : option bool) (item : pyval) :
  pinned_packages x = pinned_packages x' -> data_entry x ip iu item = data_entry x' ip iu item.
Proof. intros H. unfold data_entry, _is_package_pinned. by rewrite H. Qed.

Lemma entries_until_raise_pointwise (e1 e2 : pyval -> result (option UpdateRecord))
    (items : list pyval) :
  (forall item, e1 item = e2 item) ->
  entries_until_raise e1 items = entries_until_raise e2 items.
Proof.
  intros H. induction items as [|item rest IH]; [reflexivity|].
  cbn [entries_until_raise]. by rewrite H, IH.
Qed.

Lemma same_list_same_state (s : Sys) :
  {| self := set_available_updates (available_updates (self s) ++ []) (self s);
     past := past s |} = s.
Proof. destruct s as [[] ?]. cbn. by rewrite app_nil_r. Qed.

Lemma for_each_entries (entry : Checker -> pyval -> result (option UpdateRecord))
    (items : list pyval) (s : Sys) :
  (forall x x' item, pinned_packages x = pinned_packages x' ->
                     entry x item = entry x' item) ->
  let lr := entries_until_raise (entry (self s)) items in
  exists r,
    for_each items (fun item => append_entry (fun x => entry x item)) s
    = (r, {| self := set_available_updates (available_updates (self s) ++ fst lr) (self s);
             past := past s |})
    /\ (if snd lr then exists e, r = Raise e else r = Ok tt).
Proof.
  intros Hdep. revert s. induction items as [|item rest IH]; intros s.
  { cbn. exists (Ok tt). by rewrite same_list_same_state. }
  cbn [for_each entries_until_raise]. rewrite bind_eq. unfold append_entry at 1.
  rewrite bind_eq. unfold get_self at 1. cbv beta iota. rewrite bind_eq, lift_eq.
  destruct (entry (self s) item) as [[u|]|e].
  - rewrite modify_eq.
    set (t := {| self := append_update u (self s); past := past s |}).
    destruct (IH t) as (r & E & R). exists r.
    rewrite (entries_until_raise_pointwise (entry (self t)) (entry (self s))) in E, R
      by (intros i; by apply Hdep).
    destruct (entries_until_raise (entry (self s)) rest) as [l raised].
    cbn [fst snd] in *. split; [|exact R]. rewrite E. unfold t, append_update. cbn.
    by rewrite <- app_assoc.
  - unfold ret at 1. destruct (IH s) as (r & E & R). exists r.
    destruct (entries_until_raise (entry (self s)) rest) as [l raised].
    cbn [fst snd] in *. by split.
  - cbn [fst snd]. exists (Raise e). rewrite same_list_same_state. split; [reflexivity|].
    by exists e.
Qed.

(** X19: on a document of the [Data] shape the result list is made of the
    records of the items in the order of the document, up to the first
    item on which the extraction raises. When none raises, the parser
    returns the number of these records; when one raises it returns
    [None], and the records collected before that item stay in the
    list. *)
Theorem data_document_result (output : string) (data : pyval) (items : list pyval)
    (ip iu : option bool) (s : Sys) :
  json_loads output = Some data ->
  Py.contains "Sources" data = Ok false ->
  Py.contains "Data" data = Ok true ->
  (let? v := Py.getitem data "Data" in Py.iter v) = Ok items ->
  let lr := entries_until_raise (data_entry (self s) ip iu) items in
  exists s',
    _parse_winget_json json_loads datetime_now output ip iu s
    = (Ok (if snd lr then None else Some (Z.of_nat (length (fst lr)))), s')
    /\ available_updates (self s') = fst lr.
Proof.
  intros Hl Hs Hd Hi lr. unfold _parse_winget_json, try_except.
  rewrite bind_eq, modify_eq, bind_eq, lift_eq, Hl, bind_eq.
  unfold extract_updates. rewrite bind_eq, lift_eq, Hs, bind_eq, lift_eq, Hd.
  unfold data_branch. rewrite bind_eq, lift_eq, Hi.
  set (t := {| self := set_available_updates [] (self s); past := past s |}).
  destruct (for_each_entries (fun x item => data_entry x ip iu item) items t)
    as (r & E & R).
  { intros x x' item. apply data_entry_same_pins. }
  rewrite (entries_until_raise_pointwise (data_entry (self t) ip iu)
             (data_entry (self s) ip iu)) in E, R
    by (intros i; by apply data_entry_same_pins).
  fold lr in E, R. rewrite E. destruct (snd lr).
  - destruct R as [e ->]. eexists. split; reflexivity.
  - subst r.
    match goal with |- context [finish_parse datetime_now ?u] =>
      destruct (finish_parse_count datetime_now u) as (s' & -> & _ & L) end.
    exists s'. split; [reflexivity | exact L].
Qed.

End StructuredMore.

(** ** Worked examples of the further properties *)

Lemma text_result_is_the_lines_in_order_witness :
  existsb says_no_updates (output_lines listing) = false
  /\ _parse_winget_output listing None None (new_checker None)
     = set_update_count 1 (set_available_updates [foo_bar] (new_checker None)).
Proof.
  split; [vm_compute; reflexivity|].
  rewrite (text_result_is_the_lines_in_order listing None None (new_checker None))
    by (vm_compute; reflexivity).
  vm_compute. reflexivity.
Defined.

Lemma no_updates_phrase_empties_result_witness :
  ("No updates found." ∈ output_lines listing_then_none)
  /\ _parse_winget_output listing_then_none (Some true) (Some true) (new_checker None)
     = set_update_count 0 (set_available_updates [] (new_checker None)).
Proof.
  assert (H : "No updates found." ∈ output_lines listing_then_none).
  { apply list_elem_of_In. vm_compute. right. left. reflexivity. }
  split; [exact H|].
  apply (no_updates_phrase_empties_result listing_then_none "No updates found."
           (Some true) (Some true) (new_checker None) H).
  vm_compute. reflexivity.
Defined.

Lemma include_pinned_only_filters_witness :
  available_updates (_parse_winget_output listing (Some true) None foo_bar_pinned)
  = [foo_bar]
  /\ available_updates (_parse_winget_output listing None None foo_bar_pinned)
     = List.filter (fun u => negb (is_pinned_record (pinned_packages foo_bar_pinned) u))
         (available_updates (_parse_winget_output listing (Some true) None foo_bar_pinned)).
Proof.
  split; [vm_compute; reflexivity|].
  apply (include_pinned_only_filters listing None None foo_bar_pinned). reflexivity.
Defined.

Lemma check_updates_returns_its_count_witness :
  let r := check_updates (loads_from []) upgrade_works ticks false None None fresh in
  fst r = Ok 1
  /\ update_count (self (snd r)) = 1
  /\ is_checking (self (snd r)) = false
  /\ (1 = 0 \/ count_is_length (self (snd r))).
Proof.
  intros r.
  assert (H : check_updates (loads_from []) upgrade_works ticks false None None fresh
              = (Ok 1, snd r)) by (vm_compute; reflexivity).
  destruct (check_updates_returns_its_count (loads_from []) upgrade_works ticks
              false None None fresh (snd r) 1 H) as [Hc Hg].
  destruct (Hg eq_refl) as [Hi Hl].
  split; [vm_compute; reflexivity|]. split; [exact Hc|]. split; [exact Hi | exact Hl].
Defined.

Lemma check_updates_returns_unless_settings_fail_witness :
  settings_readable None None (self configured)
  /\ exists n s', check_updates (loads_from []) upgrade_works ticks false None None
                    configured = (Ok n, s').
Proof.
  assert (R : settings_readable None None (self configured)).
  { intros c [= <-]. split; intros _; discriminate. }
  split; [exact R|].
  apply (check_updates_returns_unless_settings_fail (loads_from []) upgrade_works ticks
           false None None configured R).
Defined.


Lemma async_failure_leaves_the_checker_witness :
  is_checking (self after_a_check) = false
  /\ check_updates_async ticks exec_fails after_a_check
     = (Ok 0, {| self := self after_a_check; past := [Spawned ["winget"; "update"]] |}).
Proof.
  split; [reflexivity|].
  apply (async_failure_leaves_the_checker ticks exec_fails after_a_check eq_refl).
  vm_compute. discriminate.
Defined.

Lemma envelope_round_trip_witness :
  data ping_request <> PNone
  /\ from_json (reads_from exchanged) (to_json (dumps_from exchanged) ping_request)
     = Ok (Some ping_request).
Proof.
  assert (D : data ping_request <> PNone) by discriminate.
  split; [exact D|].
  apply (envelope_round_trip (reads_from exchanged) (dumps_from exchanged)
           ping_request D).
  vm_compute. reflexivity.
Defined.

Lemma request_reaches_its_handler_witness :
  connected open_pipe = true
  /\ serve_request decode_ascii (reads_from exchanged) describe_exn describe_value "t1"
       ping_server
       (list_byte_of_string (to_json (dumps_from exchanged) (new_message "t0" "ping" PNone)))
       open_pipe
     = (Continue, {| connected := true; written := [pong] |})
  /\ send_command (dumps_from exchanged) list_byte_of_string decode_ascii
       (reads_from exchanged) "t0"
       (fun _ => Ok (list_byte_of_string pong_text)) true "ping" PNone
     = (Some pong, true).
Proof.
  split; [reflexivity|].
  apply (request_reaches_its_handler decode_ascii list_byte_of_string
           (reads_from exchanged) (dumps_from exchanged) describe_exn describe_value
           "t0" "t1" ping_server open_pipe "ping" PNone (PStr "pong")
           (fun _ => Ok (PStr "pong"))
           (fun _ => Ok (list_byte_of_string pong_text)) true).
  - reflexivity.
  - vm_compute. reflexivity.
  - reflexivity.
  - intros m [-> | ->]; split; vm_compute; reflexivity.
  - vm_compute. reflexivity.
Defined.

Lemma sources_key_never_gives_a_result_witness :
  _check_updates_json (loads_from [(sources_text, sources_document)]) answers_sources
    ticks base_command (Some true) (Some true) after_a_check
  = (Ok None,
     {| self := set_available_updates [] (self after_a_check);
        past := [Spawned (base_command ++ ["--format"; "json"])%list] |}).
Proof.
  apply (sources_key_never_gives_a_result
           (loads_from [(sources_text, sources_document)]) answers_sources ticks
           {| returncode := 0; stdout := sources_text; stderr := "" |}
           sources_document (Some true) (Some true) after_a_check).
  - reflexivity.
  - reflexivity.
  - vm_compute. reflexivity.
  - vm_compute. reflexivity.
Defined.

Lemma data_document_result_witness :
  entries_until_raise (data_entry (self fresh) None None) data_items
  = ([{| name := PStr "Foo Bar"; id := PStr "Foo.Bar"; current_version := PStr "1.2.3";
         available_version := PStr "1.2.4"; source := None |}], true)
  /\ exists s',
       _parse_winget_json (loads_from [(data_text, data_document)]) ticks
         data_text None None fresh = (Ok None, s')
       /\ length (available_updates (self s')) = 1%nat.
Proof.
  assert (E : entries_until_raise (data_entry (self fresh) None None) data_items
              = ([{| name := PStr "Foo Bar"; id := PStr "Foo.Bar";
                     current_version := PStr "1.2.3";
                     available_version := PStr "1.2.4"; source := None |}], true))
    by (vm_compute; reflexivity).
  split; [exact E|].
  destruct (data_document_result (loads_from [(data_text, data_document)]) ticks
              data_text data_document data_items None None fresh)
    as (s' & Hr & Hl).
  - vm_compute. reflexivity.
  - vm_compute. reflexivity.
  - vm_compute. reflexivity.
  - vm_compute. reflexivity.
  - rewrite E in Hr, Hl. cbn [fst snd] in Hr, Hl.
    exists s'. split; [exact Hr|]. by rewrite Hl.
Defined.

Lemma check_handler_always_reports_success_witness :
  exists t s',
    _handle_check_updates (loads_from []) winget_fails ticks (fun _ => "now") PNone
      misconfigured
    = (Ok (PDict [("update_count", PInt 0); ("success", PBool true);
                  ("last_check", PStr t)]), s').
Proof.
  destruct (check_handler_always_reports_success (loads_from []) winget_fails ticks
              (fun _ => "now") PNone misconfigured) as (n & t & s' & H & Hr).
  assert (N : n = 0).
  { apply (Hr ValueError
              (snd (check_updates (loads_from []) winget_fails ticks false None None
                      misconfigured))).
    vm_compute. reflexivity. }
  subst n. by exists t, s'.
Defined.

Lemma registration_changes_one_command_witness :
  _handle_command describe_exn describe_value "now"
    (register_handler "ping" (fun _ => Ok (PStr "pang")) ping_server) ping_request
  = Ok (new_message "now" "response" (PStr "pang")).
Proof.
  apply (proj1 (registration_changes_one_command describe_exn describe_value "now" "ping"
                  (fun _ => Ok (PStr "pang")) ping_server ping_request)).
  reflexivity.
Defined.

Lemma service_answers_six_commands_witness :
  ("install_updates" ∉ service_commands)
  /\ _handle_command describe_exn describe_value "now"
       (_register_command_handlers strict_pong strict_pong strict_pong strict_pong
          strict_pong strict_pong new_server) install_request
     = Ok (error_message "now" "Unknown command: value").
Proof.
  assert (N : "install_updates" ∉ service_commands).
  { intros H. apply list_elem_of_In in H. vm_compute in H.
    repeat (destruct H as [H|H]; [discriminate H|]). exact H. }
  split; [exact N|].
  apply (proj2 (service_answers_six_commands describe_exn describe_value "now"
                  strict_pong strict_pong strict_pong strict_pong strict_pong strict_pong
                  "install_updates") N install_request).
  reflexivity.
Defined.

